(** * AI Photo Studio: the image library and the generation requests

    A shallow embedding of the parts of the application that own data:
    the library handlers of [App.tsx] (load, save, delete, export, import,
    the "saved" mark) and the request functions of
    [services/geminiService.ts].

    The handlers are ordinary TypeScript running on JavaScript values, and
    two of them go through [JSON.parse] and [JSON.stringify].  The file
    therefore starts with a small model of the JavaScript side (strings as
    sequences of UTF-16 code units, numbers, JSON values, the two JSON
    built-ins), continues with the handlers, transcribed from the source,
    and ends with the properties.

    Around the library the file also embeds the studio itself: the
    texts and tables of [constants.ts], the state of the component and
    its handlers (tabs, upload, generation, reuse of a saved image,
    dictation), and the parts of the sub-components that decide what is
    shown. *)

From Stdlib Require Import String Ascii List NArith ZArith Lia Bool.
From Stdlib Require Import Decimal DecimalFacts DecimalPos DecimalN.
Import ListNotations.
Open Scope list_scope.
Set Warnings "-register-all".

(* ================================================================== *)
(** ** JavaScript values *)
(* ================================================================== *)

Module JS.

(** A JavaScript string is a finite sequence of 16-bit code units. *)
Abbreviation char := N (only parsing).
Abbreviation jsstring := (list N) (only parsing).

(** ASCII literals of the source, turned into code units. *)
Definition lit (s : string) : jsstring :=
  map N_of_ascii (list_ascii_of_string s).

(** The same, for literals that contain double quotes (JSON texts): an
    apostrophe in the Rocq literal stands for the double quote U+0022. *)
Definition quoted (s : string) : jsstring :=
  map (fun c => if (c =? 39)%N then 34%N else c) (lit s).

Fixpoint eqb_string (a b : jsstring) : bool :=
  match a, b with
  | [], [] => true
  | x :: a', y :: b' => (x =? y)%N && eqb_string a' b'
  | _, _ => false
  end.

(** Numbers.  A JavaScript number is an IEEE double; the numbers this
    program meets are the ones a JSON text can denote, together with clock
    readings and [Math.random()].  They are modelled as exact decimals in
    canonical form: an integer, or [m / 10^k] with [k >= 1] and [m] not
    divisible by ten.  Of the rounding to the nearest double the model
    has the underflow to zero (in [decimal] below); the rounding of the
    digits, overflow to [Infinity], [NaN] and the sign of zero are
    outside the model. *)
Inductive number : Type :=
  | NInt (z : Z)
  | NFrac (m : Z) (k : positive).

Definition number_eqb (a b : number) : bool :=
  match a, b with
  | NInt x, NInt y => (x =? y)%Z
  | NFrac m k, NFrac m' k' => (m =? m')%Z && (k =? k')%positive
  | _, _ => false
  end.

(** [m * 10^-k] in canonical form: trailing zeros of [m] are cancelled
    against the exponent. *)
Fixpoint strip_zeros (k : nat) (m : Z) : number :=
  match k with
  | O => NInt m
  | S k' =>
      if (m mod 10 =? 0)%Z then strip_zeros k' (m / 10)
      else NFrac m (Pos.of_succ_nat k')
  end.

(** The number a decimal literal [m * 10^e] denotes, in canonical form.
    A value of magnitude at most [2^-1075], half the smallest positive
    double, rounds to zero. *)
Definition decimal (m e : Z) : number :=
  if (0 <=? e)%Z then NInt (m * 10 ^ e)
  else if (Z.abs m * 2 ^ 1075 <=? 10 ^ (- e))%Z then NInt 0
  else strip_zeros (Z.to_nat (- e)) m.

(** Decimal digits, most significant first, as code units. *)
Fixpoint chars_of_uint (d : uint) : jsstring :=
  match d with
  | Nil => []
  | D0 d => 48%N :: chars_of_uint d
  | D1 d => 49%N :: chars_of_uint d
  | D2 d => 50%N :: chars_of_uint d
  | D3 d => 51%N :: chars_of_uint d
  | D4 d => 52%N :: chars_of_uint d
  | D5 d => 53%N :: chars_of_uint d
  | D6 d => 54%N :: chars_of_uint d
  | D7 d => 55%N :: chars_of_uint d
  | D8 d => 56%N :: chars_of_uint d
  | D9 d => 57%N :: chars_of_uint d
  end.

Definition digits (n : N) : jsstring := chars_of_uint (N.to_uint n).

Definition minus_sign (negative : bool) : jsstring :=
  if negative then [45%N] else [].

(** Exponent notation of [Number::toString]: [d.ddd e+-x]. *)
Definition exponential (ds : jsstring) (e : Z) : jsstring :=
  match ds with
  | [] => []
  | d :: rest =>
      d :: (match rest with [] => [] | _ => 46%N :: rest end)
        ++ 101%N :: (if (e <? 0)%Z then 45%N else 43%N) :: digits (Z.abs_N e)
  end.

(** [Number::toString] (radix ten).  With [ds] the significant digits and
    [n] the position of the decimal point: at most 21 integer digits are
    written out with the point inside, up to six leading zeros after
    [0.] are written out, and everything else uses exponent notation.
    Integers are written out in full; JavaScript does so below [10^21],
    far beyond the range in which a double holds every integer. *)
Definition Number_toString (x : number) : jsstring :=
  match x with
  | NInt z => minus_sign (z <? 0)%Z ++ digits (Z.abs_N z)
  | NFrac m k =>
      let ds := digits (Z.abs_N m) in
      let n := (Z.of_nat (List.length ds) - Z.pos k)%Z in
      minus_sign (m <? 0)%Z ++
      (if ((0 <? n) && (n <=? 21))%Z then
         firstn (Z.to_nat n) ds ++ 46%N :: skipn (Z.to_nat n) ds
       else if ((-6 <? n) && (n <=? 0))%Z then
         48%N :: 46%N :: repeat 48%N (Z.to_nat (- n)) ++ ds
       else exponential ds (n - 1))
  end.

(** JSON values: what [JSON.parse] returns and what the library holds.
    An object is the list of its own properties in creation order, with
    distinct keys. *)
Inductive json : Type :=
  | JNull
  | JBool (b : bool)
  | JNum (n : number)
  | JStr (s : jsstring)
  | JArr (elements : list json)
  | JObj (properties : list (jsstring * json)).

Abbreviation object := (list (list N * json)) (only parsing).

(** The result of reading a property: [None] is [undefined]. *)
Abbreviation value := (option json) (only parsing).

(** [o.k] on an object: its own property [k], [undefined] when there is
    none.  Only the five keys of a saved image are ever read, and
    [Object.prototype] defines none of them. *)
Fixpoint get (k : jsstring) (o : object) : value :=
  match o with
  | [] => None
  | (k', v) :: rest => if eqb_string k' k then Some v else get k rest
  end.

(** The keys that are array indices: the decimal numerals without
    leading zero of the integers up to [2^32 - 2].  An object lists these
    keys first, in ascending numeric order, and then the other keys in
    the order of their creation. *)
Definition array_index (k : jsstring) : option N :=
  match k with
  | [] => None
  | c :: rest =>
      if forallb (fun d => (48 <=? d) && (d <=? 57))%N k
         && ((c =? 48)%N && match rest with [] => true | _ => false end
             || negb (c =? 48)%N)
      then
        let n := fold_left (fun acc d => (10 * acc + (d - 48))%N) k 0%N in
        if (n <=? 4294967294)%N then Some n else None
      else None
  end.

(** A new property whose key is the array index [n]: it goes before the
    first property that is not an array index or has a larger one. *)
Fixpoint insert_index (n : N) (k : jsstring) (v : json) (o : object) : object :=
  match o with
  | [] => [(k, v)]
  | (k', v') :: rest =>
      match array_index k' with
      | Some n' =>
          if (n' <? n)%N then (k', v') :: insert_index n k v rest
          else (k, v) :: o
      | None => (k, v) :: o
      end
  end.

Fixpoint overwrite (k : jsstring) (v : json) (o : object) : object :=
  match o with
  | [] => []
  | (k', v') :: rest =>
      if eqb_string k' k then (k', v) :: rest else (k', v') :: overwrite k v rest
  end.

(** Defining a property the way [JSON.parse] does: an existing key keeps
    its place and takes the new value; a new key goes among the array
    indices when it is one, and last otherwise. *)
Definition set (k : jsstring) (v : json) (o : object) : object :=
  match get k o with
  | Some _ => overwrite k v o
  | None =>
      match array_index k with
      | Some n => insert_index n k v o
      | None => o ++ [(k, v)]
      end
  end.

(** [ToBoolean]. *)
Definition truthy (v : value) : bool :=
  match v with
  | None => false
  | Some JNull => false
  | Some (JBool b) => b
  | Some (JNum (NInt z)) => negb (z =? 0)%Z
  | Some (JNum (NFrac m _)) => negb (m =? 0)%Z
  | Some (JStr s) => match s with [] => false | _ => true end
  | Some (JArr _) => true
  | Some (JObj _) => true
  end.

(** [typeof v === 'string'] and [typeof v === 'number']. *)
Definition is_string (v : value) : bool :=
  match v with Some (JStr _) => true | _ => false end.

Definition is_number (v : value) : bool :=
  match v with Some (JNum _) => true | _ => false end.

(** [v === s] for a string [s]. *)
Definition strict_equal_string (v : value) (s : jsstring) : bool :=
  match v with Some (JStr t) => eqb_string t s | _ => false end.

(** [v === w] where [w] is a string or [null] ([None] here is [null]). *)
Definition strict_equal_string_or_null (v : value) (w : option jsstring) : bool :=
  match w with
  | Some s => strict_equal_string v s
  | None => match v with Some JNull => true | _ => false end
  end.

(** [SameValueZero], the comparison of [Set.prototype.has].  Arrays and
    objects are compared by reference; the values compared below come
    from different [JSON.parse] results or object literals and are never
    the same reference. *)
Definition SameValueZero (a b : value) : bool :=
  match a, b with
  | None, None => true
  | Some JNull, Some JNull => true
  | Some (JBool x), Some (JBool y) => Bool.eqb x y
  | Some (JNum x), Some (JNum y) => number_eqb x y
  | Some (JStr x), Some (JStr y) => eqb_string x y
  | _, _ => false
  end.

(** [new Set(values).has(x)]. *)
Definition Set_has (values : list value) (x : value) : bool :=
  existsb (fun v => SameValueZero v x) values.

(** [s.indexOf(c)] for a one-character search string: the first position
    of [c], or -1. *)
Fixpoint indexOf (c : char) (s : jsstring) : Z :=
  match s with
  | [] => (-1)%Z
  | x :: rest =>
      if (x =? c)%N then 0%Z
      else let i := indexOf c rest in if (i <? 0)%Z then (-1)%Z else (i + 1)%Z
  end.

(** [s.substring(a, b)]: both bounds are clamped to [0, length] and
    swapped when out of order. *)
Definition substring (s : jsstring) (a b : Z) : jsstring :=
  let len := Z.of_nat (List.length s) in
  let a' := Z.min (Z.max a 0) len in
  let b' := Z.min (Z.max b 0) len in
  let from := Z.to_nat (Z.min a' b') in
  let to := Z.to_nat (Z.max a' b') in
  firstn (to - from) (skipn from s).

End JS.

(* ================================================================== *)
(** ** [JSON.stringify] and [JSON.parse] *)
(* ================================================================== *)

Module JSON.
Import JS.

(** *** Serialization *)

Definition hex_digit (n : N) : char :=
  if (n <? 10)%N then (48 + n)%N else (87 + n)%N.

(** [UnicodeEscape]: backslash, [u], four lowercase hexadecimal digits. *)
Definition UnicodeEscape (c : char) : jsstring :=
  [92%N; 117%N;
   hex_digit (N.land (N.shiftr c 12) 15); hex_digit (N.land (N.shiftr c 8) 15);
   hex_digit (N.land (N.shiftr c 4) 15); hex_digit (N.land c 15)].

Definition is_high_surrogate (c : char) : bool :=
  ((55296 <=? c) && (c <=? 56319))%N.
Definition is_low_surrogate (c : char) : bool :=
  ((56320 <=? c) && (c <=? 57343))%N.

(** One code unit that is not part of a surrogate pair. *)
Definition quote_char (c : char) : jsstring :=
  if (c =? 8)%N then [92%N; 98%N]
  else if (c =? 9)%N then [92%N; 116%N]
  else if (c =? 10)%N then [92%N; 110%N]
  else if (c =? 12)%N then [92%N; 102%N]
  else if (c =? 13)%N then [92%N; 114%N]
  else if (c =? 34)%N then [92%N; 34%N]
  else if (c =? 92)%N then [92%N; 92%N]
  else if (c <? 32)%N then UnicodeEscape c
  else if is_high_surrogate c || is_low_surrogate c then UnicodeEscape c
  else [c].

(** The body of [QuoteJSONString]: the string is read by code points, so
    a high surrogate followed by a low one is copied as it is and a lone
    surrogate is escaped. *)
Fixpoint quote_chars (s : jsstring) : jsstring :=
  match s with
  | [] => []
  | c :: t =>
      if is_high_surrogate c then
        match t with
        | c2 :: t2 =>
            if is_low_surrogate c2 then c :: c2 :: quote_chars t2
            else quote_char c ++ quote_chars t
        | [] => quote_char c
        end
      else quote_char c ++ quote_chars t
  end.

Definition QuoteJSONString (s : jsstring) : jsstring :=
  34%N :: quote_chars s ++ [34%N].

Fixpoint join (sep : jsstring) (parts : list jsstring) : jsstring :=
  match parts with
  | [] => []
  | [p] => p
  | p :: rest => p ++ sep ++ join sep rest
  end.

(** The brackets of [SerializeJSONArray] and [SerializeJSONObject] around
    the serialized elements or members: [stepback] is the indentation
    outside, [indent] the one inside, [gap] one level of indentation. *)
Definition wrap (opening closing : char) (gap stepback : jsstring)
    (parts : list jsstring) : jsstring :=
  match parts with
  | [] => [opening; closing]
  | _ =>
      let indent := stepback ++ gap in
      match gap with
      | [] => opening :: join [44%N] parts ++ [closing]
      | _ =>
          opening :: 10%N :: indent ++ join (44%N :: 10%N :: indent) parts
            ++ 10%N :: stepback ++ [closing]
      end
  end.

(** A member of an object: the quoted key, a colon, a space when there is
    a gap, the serialized value. *)
Definition member (gap key str : jsstring) : jsstring :=
  QuoteJSONString key ++ 58%N :: (match gap with [] => [] | _ => [32%N] end) ++ str.

(** [SerializeJSONProperty] at indentation [stepback]. *)
Fixpoint serialize (gap stepback : jsstring) (v : json) : jsstring :=
  match v with
  | JNull => lit "null"
  | JBool true => lit "true"
  | JBool false => lit "false"
  | JNum n => Number_toString n
  | JStr s => QuoteJSONString s
  | JArr elements =>
      wrap 91%N 93%N gap stepback (map (serialize gap (stepback ++ gap)) elements)
  | JObj properties =>
      wrap 123%N 125%N gap stepback
        (map (fun kv => member gap (fst kv) (serialize gap (stepback ++ gap) (snd kv)))
             properties)
  end.

(** [JSON.stringify(v)]. *)
Definition stringify (v : json) : jsstring := serialize [] [] v.

(** [JSON.stringify(v, null, n)]: the gap is [n] spaces, ten at most. *)
Definition stringify_indented (v : json) (n : nat) : jsstring :=
  serialize (repeat 32%N (Nat.min n 10)) [] v.

(** *** Parsing *)

Inductive token : Type :=
  | TLBracket | TRBracket | TLBrace | TRBrace | TColon | TComma
  | TTrue | TFalse | TNull
  | TStr (s : jsstring)
  | TNum (n : number).

Definition is_ws (c : char) : bool :=
  ((c =? 32) || (c =? 9) || (c =? 10) || (c =? 13))%N.

Definition is_digit (c : char) : bool := ((48 <=? c) && (c <=? 57))%N.

Definition hex_value (c : char) : option N :=
  if ((48 <=? c) && (c <=? 57))%N then Some (c - 48)%N
  else if ((97 <=? c) && (c <=? 102))%N then Some (c - 87)%N
  else if ((65 <=? c) && (c <=? 70))%N then Some (c - 55)%N
  else None.

Definition hex4 (a b c d : char) : option char :=
  match hex_value a, hex_value b, hex_value c, hex_value d with
  | Some x, Some y, Some z, Some w => Some (((x * 16 + y) * 16 + z) * 16 + w)%N
  | _, _, _, _ => None
  end.

(** The character after a backslash, [u] apart. *)
Definition unescape (e : char) : option char :=
  if (e =? 34)%N then Some 34%N
  else if (e =? 92)%N then Some 92%N
  else if (e =? 47)%N then Some 47%N
  else if (e =? 98)%N then Some 8%N
  else if (e =? 102)%N then Some 12%N
  else if (e =? 110)%N then Some 10%N
  else if (e =? 114)%N then Some 13%N
  else if (e =? 116)%N then Some 9%N
  else None.

Definition prepend (c : char) (r : option (jsstring * jsstring)) :
    option (jsstring * jsstring) :=
  match r with Some (s, rest) => Some (c :: s, rest) | None => None end.

(** A string after its opening quote: the characters up to the closing
    quote, and the text after it.  Control characters must be escaped. *)
Fixpoint lex_string (s : jsstring) : option (jsstring * jsstring) :=
  match s with
  | [] => None
  | c :: t =>
      if (c =? 34)%N then Some ([], t)
      else if (c =? 92)%N then
        match t with
        | [] => None
        | e :: t' =>
            if (e =? 117)%N then
              match t' with
              | h1 :: h2 :: h3 :: h4 :: t'' =>
                  match hex4 h1 h2 h3 h4 with
                  | Some u => prepend u (lex_string t'')
                  | None => None
                  end
              | _ => None
              end
            else
              match unescape e with
              | Some u => prepend u (lex_string t')
              | None => None
              end
        end
      else if (c <? 32)%N then None
      else prepend c (lex_string t)
  end.

Definition digit_cons (c : char) (d : uint) : uint :=
  if (c =? 48)%N then D0 d else if (c =? 49)%N then D1 d
  else if (c =? 50)%N then D2 d else if (c =? 51)%N then D3 d
  else if (c =? 52)%N then D4 d else if (c =? 53)%N then D5 d
  else if (c =? 54)%N then D6 d else if (c =? 55)%N then D7 d
  else if (c =? 56)%N then D8 d else D9 d.

(** The longest run of digits at the head of the text, and the rest. *)
Fixpoint read_digits (s : jsstring) : uint * jsstring :=
  match s with
  | [] => (Nil, [])
  | c :: t =>
      if is_digit c then
        let (d, rest) := read_digits t in (digit_cons c d, rest)
      else (Nil, s)
  end.

(** The integer part of a JSON number: a single zero, or digits that do
    not start with a zero. *)
Definition valid_int (d : uint) : bool :=
  match d with
  | Nil => false
  | D0 Nil => true
  | D0 _ => false
  | _ => true
  end.

(** Optional fraction: a point followed by at least one digit. *)
Definition read_fraction (s : jsstring) : option (uint * jsstring) :=
  match s with
  | c :: t =>
      if (c =? 46)%N then
        match read_digits t with
        | (Nil, _) => None
        | (d, rest) => Some (d, rest)
        end
      else Some (Nil, s)
  | [] => Some (Nil, s)
  end.

Definition read_exponent_digits (negative : bool) (s : jsstring) :
    option (Z * jsstring) :=
  match read_digits s with
  | (Nil, _) => None
  | (d, rest) =>
      let e := Z.of_N (N.of_uint d) in
      Some (if negative then (- e)%Z else e, rest)
  end.

(** Optional exponent: [e] or [E], an optional sign, at least one digit. *)
Definition read_exponent (s : jsstring) : option (Z * jsstring) :=
  match s with
  | c :: t =>
      if ((c =? 101) || (c =? 69))%N then
        match t with
        | sign :: t' =>
            if (sign =? 43)%N then read_exponent_digits false t'
            else if (sign =? 45)%N then read_exponent_digits true t'
            else read_exponent_digits false t
        | [] => None
        end
      else Some (0%Z, s)
  | [] => Some (0%Z, s)
  end.

(** A JSON number without its sign at the head of the text, and the text
    after it. *)
Definition lex_unsigned (negative : bool) (s : jsstring) :
    option (number * jsstring) :=
  let (ip, s2) := read_digits s in
  if valid_int ip then
    match read_fraction s2 with
    | Some (fp, s3) =>
        match read_exponent s3 with
        | Some (e, s4) =>
            let kf := Z.of_nat (nb_digits fp) in
            let m := (Z.of_N (N.of_uint ip) * 10 ^ kf + Z.of_N (N.of_uint fp))%Z in
            Some (decimal (if negative then (- m)%Z else m) (e - kf), s4)
        | None => None
        end
    | None => None
    end
  else None.

(** A JSON number at the head of the text, and the text after it. *)
Definition lex_number (s : jsstring) : option (number * jsstring) :=
  match s with
  | c :: t => if (c =? 45)%N then lex_unsigned true t else lex_unsigned false s
  | [] => lex_unsigned false s
  end.

(** A text before which a number ends: it is empty or starts with a
    character that cannot continue a number. *)
Definition delimited (s : jsstring) : bool :=
  match s with
  | [] => true
  | c :: _ => negb (is_digit c || (c =? 46) || (c =? 101) || (c =? 69))%N
  end.

Fixpoint starts_with (p s : jsstring) : bool :=
  match p, s with
  | [], _ => true
  | x :: p', y :: s' => (x =? y)%N && starts_with p' s'
  | _ :: _, [] => false
  end.

(** The token that starts with character [c], followed by [t]: the token
    and how many characters of [t] belong to it. *)
Definition token_at (c : char) (t : jsstring) : option (token * nat) :=
  if (c =? 91)%N then Some (TLBracket, 0)
  else if (c =? 93)%N then Some (TRBracket, 0)
  else if (c =? 123)%N then Some (TLBrace, 0)
  else if (c =? 125)%N then Some (TRBrace, 0)
  else if (c =? 58)%N then Some (TColon, 0)
  else if (c =? 44)%N then Some (TComma, 0)
  else if (c =? 34)%N then
    match lex_string t with
    | Some (s, rest) => Some (TStr s, List.length t - List.length rest)
    | None => None
    end
  else if (c =? 45)%N || is_digit c then
    match lex_number (c :: t) with
    | Some (n, rest) => Some (TNum n, List.length t - List.length rest)
    | None => None
    end
  else if (c =? 116)%N then
    if starts_with (lit "rue") t then Some (TTrue, 3) else None
  else if (c =? 102)%N then
    if starts_with (lit "alse") t then Some (TFalse, 4) else None
  else if (c =? 110)%N then
    if starts_with (lit "ull") t then Some (TNull, 3) else None
  else None.

(** The tokens of a text; [None] on a lexical error.  [skip] counts the
    characters that still belong to the token emitted last. *)
Fixpoint lex (skip : nat) (s : jsstring) : option (list token) :=
  match s with
  | [] => Some []
  | c :: t =>
      match skip with
      | S k => lex k t
      | O =>
          if is_ws c then lex 0 t
          else
            match token_at c t with
            | Some (tok, k) => option_map (cons tok) (lex k t)
            | None => None
            end
      end
  end.

(** The parser is a pushdown automaton over the tokens.  A frame is an
    array or object under construction together with what may come
    next. *)
Inductive frame : Type :=
  | ArrOpen                                  (* after [ : a value or ] *)
  | ArrElem (acc : list json)                (* after an element: , or ] *)
  | ArrComma (acc : list json)               (* after , : a value *)
  | ObjOpen                                  (* after { : a key or } *)
  | ObjKey (acc : object) (k : jsstring)     (* after a key: : *)
  | ObjColon (acc : object) (k : jsstring)   (* after : : a value *)
  | ObjMember (acc : object)                 (* after a member: , or } *)
  | ObjComma (acc : object).                 (* after , : a key *)

Inductive pstate : Type :=
  | Parsing (stack : list frame)   (* the empty stack awaits the top value *)
  | Finished (v : json).

(** A complete value [v] arrives below the frames [stack]. *)
Definition push_value (v : json) (stack : list frame) : option pstate :=
  match stack with
  | [] => Some (Finished v)
  | ArrOpen :: r => Some (Parsing (ArrElem [v] :: r))
  | ArrComma acc :: r => Some (Parsing (ArrElem (v :: acc) :: r))
  | ObjColon acc k :: r => Some (Parsing (ObjMember (set k v acc) :: r))
  | _ => None
  end.

Definition expects_value (stack : list frame) : bool :=
  match stack with
  | [] | ArrOpen :: _ | ArrComma _ :: _ | ObjColon _ _ :: _ => true
  | _ => false
  end.

Definition step (st : pstate) (tok : token) : option pstate :=
  match st with
  | Finished _ => None
  | Parsing stack =>
      match tok with
      | TLBracket => if expects_value stack then Some (Parsing (ArrOpen :: stack)) else None
      | TLBrace => if expects_value stack then Some (Parsing (ObjOpen :: stack)) else None
      | TRBracket =>
          match stack with
          | ArrOpen :: r => push_value (JArr []) r
          | ArrElem acc :: r => push_value (JArr (List.rev acc)) r
          | _ => None
          end
      | TRBrace =>
          match stack with
          | ObjOpen :: r => push_value (JObj []) r
          | ObjMember acc :: r => push_value (JObj acc) r
          | _ => None
          end
      | TComma =>
          match stack with
          | ArrElem acc :: r => Some (Parsing (ArrComma acc :: r))
          | ObjMember acc :: r => Some (Parsing (ObjComma acc :: r))
          | _ => None
          end
      | TColon =>
          match stack with
          | ObjKey acc k :: r => Some (Parsing (ObjColon acc k :: r))
          | _ => None
          end
      | TStr s =>
          match stack with
          | ObjOpen :: r => Some (Parsing (ObjKey [] s :: r))
          | ObjComma acc :: r => Some (Parsing (ObjKey acc s :: r))
          | _ => push_value (JStr s) stack
          end
      | TTrue => push_value (JBool true) stack
      | TFalse => push_value (JBool false) stack
      | TNull => push_value JNull stack
      | TNum n => push_value (JNum n) stack
      end
  end.

Fixpoint run (st : pstate) (toks : list token) : option pstate :=
  match toks with
  | [] => Some st
  | tok :: rest =>
      match step st tok with
      | Some st' => run st' rest
      | None => None
      end
  end.

(** [JSON.parse(text)]: the value, or [None] where JavaScript throws a
    [SyntaxError]. *)
Definition parse (text : jsstring) : option json :=
  match lex 0 text with
  | Some toks =>
      match run (Parsing []) toks with
      | Some (Finished v) => Some v
      | _ => None
      end
  | None => None
  end.

(** *** Vocabulary for the facts about the two functions *)

(** The tokens of parts joined by commas ([join] on the token side). *)
Fixpoint separated (toks : list (list token)) : list token :=
  match toks with
  | [] => []
  | [t] => t
  | t :: rest => t ++ TComma :: separated rest
  end.

(** [text] is a sequence of complete tokens: in front of any text that
    cannot continue a number, it contributes exactly [toks]. *)
Definition lexes (text : jsstring) (toks : list token) : Prop :=
  forall r, delimited r = true ->
    lex 0 (text ++ r) = option_map (List.app toks) (lex 0 r).

Definition whitespace (s : jsstring) : bool := forallb is_ws s.

(** Well-formed UTF-16: every high surrogate is followed by a low one and
    every low surrogate follows a high one.  These are the strings that
    UTF-8 encodes and decodes without loss. *)
Fixpoint well_formed (s : jsstring) : bool :=
  match s with
  | [] => true
  | c :: t =>
      if is_high_surrogate c then
        match t with
        | c2 :: t2 => is_low_surrogate c2 && well_formed t2
        | [] => false
        end
      else negb (is_low_surrogate c) && well_formed t
  end.

(** Text without any surrogate. *)
Definition plain (s : jsstring) : bool :=
  forallb (fun c => negb (is_high_surrogate c || is_low_surrogate c)) s.

End JSON.

(* ================================================================== *)
(** ** [types.ts] *)
(* ================================================================== *)

Module types.
Import JS.

(** [interface SavedImage].  The time stamp is a clock reading in epoch
    milliseconds, an integer. *)
Record SavedImage : Type := {
  id : jsstring;
  imageDataUrl : jsstring;
  mimeType : jsstring;
  prompt : jsstring;
  timestamp : Z
}.

(** The object a [SavedImage] is at run time: the object literal of
    [handleSaveToLibrary], keys in the order written there. *)
Definition object_of (i : SavedImage) : object :=
  [ (lit "id", JStr (id i));
    (lit "imageDataUrl", JStr (imageDataUrl i));
    (lit "mimeType", JStr (mimeType i));
    (lit "prompt", JStr (prompt i));
    (lit "timestamp", JNum (NInt (timestamp i))) ].

Inductive AspectRatio : Type := R1_1 | R16_9 | R9_16 | R4_3 | R3_4.

End types.

(* ================================================================== *)
(** ** [services/geminiService.ts] *)
(* ================================================================== *)

Module geminiService.
Import JS.

Record ImageInput : Type := { base64 : jsstring; mimeType : jsstring }.

Inductive part : Type :=
  | inlineData (data mime : jsstring)
  | text (t : jsstring).

(** The two calls made on the remote client, with their arguments. *)
Inductive request : Type :=
  | generateImages (model prompt : jsstring) (numberOfImages : nat)
      (outputMimeType : jsstring) (aspectRatio : types.AspectRatio)
  | generateContent (model : jsstring) (parts : list part).

(** What the remote service answers: the generated images (the field may
    be missing), or the parts of the first candidate. *)
Inductive response : Type :=
  | images (generatedImages : option (list jsstring))
  | content (parts : list part).

(** The remote client; [None] is a rejected call. *)
Definition service := request -> option response.

(** What a request function did: the request it sent and the image it
    returned, [None] when it threw. *)
Record outcome : Type := { sent : request; returned : option jsstring }.

(** [stylePrompt ? `${prompt}, ${stylePrompt}` : prompt]; the optional
    argument is [undefined] when absent, and the empty string is falsy. *)
Definition finalPrompt (prompt : jsstring) (stylePrompt : option jsstring) : jsstring :=
  match stylePrompt with
  | Some (c :: s) => prompt ++ lit ", " ++ c :: s
  | Some [] => prompt
  | None => prompt
  end.

(** [for (const part of parts) if (part.inlineData) return part.inlineData.data]. *)
Fixpoint first_inline_data (parts : list part) : option jsstring :=
  match parts with
  | [] => None
  | inlineData d _ :: _ => Some d
  | text _ :: rest => first_inline_data rest
  end.

Definition generateImageFromText (ai : service) (prompt : jsstring)
    (stylePrompt : option jsstring) (aspectRatio : types.AspectRatio) : outcome :=
  let req := generateImages (lit "imagen-4.0-generate-001")
               (finalPrompt prompt stylePrompt) 1 (lit "image/png") aspectRatio in
  {| sent := req;
     returned :=
       match ai req with
       | Some (images (Some (first :: _))) => Some first
       | _ => None
       end |}.

Definition generateImageFromImage (ai : service) (prompt : jsstring)
    (image : ImageInput) (stylePrompt : option jsstring) : outcome :=
  let req := generateContent (lit "gemini-2.5-flash-image")
               [ inlineData (base64 image) (mimeType image);
                 text (finalPrompt prompt stylePrompt) ] in
  {| sent := req;
     returned :=
       match ai req with
       | Some (content parts) => first_inline_data parts
       | _ => None
       end |}.

Definition generateImageFromTwoImages (ai : service) (prompt : jsstring)
    (image1 image2 : ImageInput) (stylePrompt : option jsstring) : outcome :=
  let req := generateContent (lit "gemini-2.5-flash-image")
               [ inlineData (base64 image1) (mimeType image1);
                 inlineData (base64 image2) (mimeType image2);
                 text (finalPrompt prompt stylePrompt) ] in
  {| sent := req;
     returned :=
       match ai req with
       | Some (content parts) => first_inline_data parts
       | _ => None
       end |}.

(** The prompt text a request carries. *)
Definition prompt_sent (r : request) : list jsstring :=
  match r with
  | generateImages _ p _ _ _ => [p]
  | generateContent _ parts =>
      flat_map (fun p => match p with text t => [t] | inlineData _ _ => [] end) parts
  end.

End geminiService.

(* ================================================================== *)
(** ** [App.tsx]: the library *)
(* ================================================================== *)

Module App.
Import JS.

(** The state the library handlers read and write: three of the
    component's state variables and the item stored under
    ['ai-photo-studio-library'] in [localStorage] ([None]: no item). *)
Record state : Type := {
  library : list object;
  outputImage : option jsstring;
  prompt : jsstring;
  localStorage : option jsstring
}.

Definition initial : state :=
  {| library := []; outputImage := None; prompt := []; localStorage := None |}.

Definition array_of (l : list object) : json := JArr (map JObj l).

(** The library the mount effect leaves in the state:
[[
    try {
      const saved = localStorage.getItem('ai-photo-studio-library');
      if (saved) setLibrary(JSON.parse(saved));
    } catch (e) { setLibrary([]); }
]]
    [setLibrary] receives whatever [JSON.parse] returned, so the result is
    a JSON value, of which the state's type says it is an array. *)
Definition loadLibraryEffect (saved : option jsstring) : json :=
  match saved with
  | None => JArr []
  | Some [] => JArr []
  | Some text =>
      match JSON.parse text with
      | Some v => v
      | None => JArr []
      end
  end.

(** What a call of [localStorage.setItem] does: the browser stores the
    item, or it throws (the quota is exceeded, storage is disabled) and
    the item stays as it was.  Which of the two happens is the browser's
    matter; the handlers that write take it as an argument, like the
    clock. *)
Inductive setItem : Type := stores | throws.

(** [updateLibrary]: [setLibrary] comes first, so the library of the
    state is the new one also when the write that follows throws; the
    exception then leaves [updateLibrary]. *)
Definition updateLibrary (write : setItem) (newLibrary : list object) (st : state) :
    state :=
  {| library := newLibrary;
     outputImage := outputImage st;
     prompt := prompt st;
     localStorage :=
       match write with
       | stores => Some (JSON.stringify (array_of newLibrary))
       | throws => localStorage st
       end |}.

(** The id of a new image: [`${Date.now()}-${Math.random()}`]. *)
Definition new_id (now : Z) (random : number) : jsstring :=
  Number_toString (NInt now) ++ lit "-" ++ Number_toString random.

(** [handleSaveToLibrary], with the values it reads from the environment:
    the clock (read twice) and [Math.random()].  The handler has no
    [try]: when the write throws, the exception leaves the handler and
    the state is the one [updateLibrary] made. *)
Definition handleSaveToLibrary (now1 : Z) (random : number) (now2 : Z)
    (write : setItem) (st : state) : state :=
  match outputImage st, prompt st with
  | Some (c :: out), p :: rest =>
      let outputImage := c :: out in
      let mimeType :=
        substring outputImage (indexOf 58%N outputImage + 1) (indexOf 59%N outputImage) in
      let newImage := {|
        types.id := new_id now1 random;
        types.imageDataUrl := outputImage;
        types.mimeType := match mimeType with [] => lit "image/png" | _ => mimeType end;
        types.prompt := p :: rest;
        types.timestamp := now2 |} in
      updateLibrary write (types.object_of newImage :: library st) st
  | _, _ => st
  end.

(** [handleDeleteFromLibrary]; a write that throws leaves the handler
    as it does in [handleSaveToLibrary]. *)
Definition handleDeleteFromLibrary (id : jsstring) (write : setItem) (st : state) :
    state :=
  updateLibrary write
    (filter (fun img => negb (strict_equal_string (get (lit "id") img) id)) (library st))
    st.

(** [handleExportLibrary]: the content of the downloaded file, [None]
    when the library is empty and nothing is downloaded.  The file is the
    text itself: [JSON.stringify] escapes lone surrogates, so that the
    UTF-8 encoding of the [Blob] and the decoding by [readAsText] on
    import are inverse to each other. *)
Definition handleExportLibrary (st : state) : option jsstring :=
  match library st with
  | [] => None
  | _ => Some (JSON.stringify_indented (array_of (library st)) 2)
  end.

(** The test of the import filter on an object:
[[
    item.id && typeof item.id === 'string' &&
    item.imageDataUrl && typeof item.imageDataUrl === 'string' &&
    item.prompt && typeof item.prompt === 'string' &&
    item.timestamp && typeof item.timestamp === 'number'
]] *)
Definition valid (item : object) : bool :=
  truthy (get (lit "id") item) && is_string (get (lit "id") item) &&
  truthy (get (lit "imageDataUrl") item) && is_string (get (lit "imageDataUrl") item) &&
  truthy (get (lit "prompt") item) && is_string (get (lit "prompt") item) &&
  truthy (get (lit "timestamp") item) && is_number (get (lit "timestamp") item).

(** [importedData.filter(item => ...)].  Reading [item.id] throws a
    [TypeError] when the item is [null], and the whole filter fails with
    it (the result [None]); on a number, a string, a boolean or an array
    it gives [undefined], so that such items do not pass.  The items that
    pass are objects. *)
Fixpoint validImportedImages (importedData : list json) : option (list object) :=
  match importedData with
  | [] => Some []
  | JNull :: _ => None
  | JObj item :: rest =>
      match validImportedImages rest with
      | Some l => Some (if valid item then item :: l else l)
      | None => None
      end
  | _ :: rest => validImportedImages rest
  end.

(** What the user is told after an import. *)
Inductive alert : Type :=
  | importSuccess (count : nat)
  | noNewImages
  | importError.

(** [handleImportLibrary] once the file has been read as [text] (the
    [reader.onload] callback); every exception raised inside the [try]
    ends in [alert(T.importError)].  That includes the write of
    [updateLibrary]: when it throws, the library has the new images and
    the user is told that the import failed. *)
Definition handleImportLibrary (text : jsstring) (write : setItem) (st : state) :
    state * alert :=
  match JSON.parse text with
  | None => (st, importError)
  | Some (JArr importedData) =>
      match validImportedImages importedData with
      | None => (st, importError)
      | Some validImages =>
          let existingIds := map (get (lit "id")) (library st) in
          let newImages :=
            filter (fun img => negb (Set_has existingIds (get (lit "id") img)))
                   validImages in
          match newImages with
          | [] => (st, noNewImages)
          | _ :: _ =>
              (updateLibrary write (newImages ++ library st) st,
               match write with
               | stores => importSuccess (List.length newImages)
               | throws => importError
               end)
          end
      end
  | Some _ => (st, importError)
  end.

(** The other callback of [handleImportLibrary], [reader.onerror]: the
    file could not be read. *)
Definition handleImportLibrary_onerror (st : state) : state * alert :=
  (st, importError).

(** [isSaved={!!library.find(img => img.imageDataUrl === outputImage)}]. *)
Definition isSaved (st : state) : bool :=
  existsb
    (fun img => strict_equal_string_or_null (get (lit "imageDataUrl") img) (outputImage st))
    (library st).

(** The same expression on whatever the mount effect left in the state,
    as the first render after loading evaluates it.  [None] is a
    [TypeError]: a value that is not an array has no [find] method, and
    inside an array reading [img.imageDataUrl] throws on [null].  On a
    number, a string, a boolean or an array the property is [undefined],
    which is not equal to a string or to [null]. *)
Fixpoint find_saved (items : list json) (out : option jsstring) : option bool :=
  match items with
  | [] => Some false
  | JNull :: _ => None
  | JObj img :: rest =>
      if strict_equal_string_or_null (get (lit "imageDataUrl") img) out
      then Some true
      else find_saved rest out
  | _ :: rest => find_saved rest out
  end.

Definition render_isSaved (loaded : json) (out : option jsstring) : option bool :=
  match loaded with
  | JArr items => find_saved items out
  | _ => None
  end.

End App.

(* ================================================================== *)
(** ** Vocabulary for the facts about the library *)
(* ================================================================== *)

Module Vocabulary.
Import JS JSON types.

(** The tokens of a serialized [SavedImage] and of a serialized library. *)
Definition image_tokens (i : SavedImage) : list token :=
  TLBrace ::
  separated
    [ [TStr (lit "id"); TColon; TStr (id i)];
      [TStr (lit "imageDataUrl"); TColon; TStr (imageDataUrl i)];
      [TStr (lit "mimeType"); TColon; TStr (mimeType i)];
      [TStr (lit "prompt"); TColon; TStr (prompt i)];
      [TStr (lit "timestamp"); TColon; TNum (NInt (timestamp i))] ]
  ++ [TRBrace].

Definition library_tokens (l : list SavedImage) : list token :=
  TLBracket :: separated (map image_tokens l) ++ [TRBracket].

(** The library a list of typed images is at run time. *)
Definition objects_of (l : list SavedImage) : list object := map object_of l.

(** The ids of a library, as the import handler collects them. *)
Definition ids (l : list object) : list value := map (get (lit "id")) l.

(** A typed image the import filter lets through: the fields it tests for
    truthiness are neither empty nor zero. *)
Definition importable (i : SavedImage) : Prop :=
  id i <> [] /\ imageDataUrl i <> [] /\ prompt i <> [] /\ timestamp i <> 0%Z.

(** The same test as a function: the typed images of a file that an
    import keeps. *)
Definition kept (i : SavedImage) : bool :=
  match id i, imageDataUrl i, prompt i with
  | _ :: _, _ :: _, _ :: _ => negb (timestamp i =? 0)%Z
  | _, _, _ => false
  end.

(** Whether a string is the id of an entry of a library. *)
Definition known (l : list object) (s : jsstring) : bool :=
  existsb (fun img => strict_equal_string (get (lit "id") img) s) l.

(** Structural validation in the words of the specification: id present
    and a non-empty string, imageDataUrl present and a string, prompt
    present and a non-empty string, timestamp present and numeric. *)
Definition structurally_valid (item : object) : bool :=
  match get (lit "id") item, get (lit "imageDataUrl") item,
        get (lit "prompt") item, get (lit "timestamp") item with
  | Some (JStr (_ :: _)), Some (JStr _), Some (JStr (_ :: _)), Some (JNum _) => true
  | _, _, _, _ => false
  end.

(** A state that holds the given library and nothing else. *)
Definition holding (l : list object) : App.state :=
  {| App.library := l; App.outputImage := None; App.prompt := [];
     App.localStorage := None |}.

(** The image of the concrete scenario of the specification. *)
Definition cat : SavedImage :=
  {| id := lit "x1";
     imageDataUrl := lit "data:image/png;base64,AAAA";
     mimeType := lit "image/png";
     prompt := lit "cat";
     timestamp := 1000 |}.

(** Two more images, for libraries of several entries. *)
Definition dog : SavedImage :=
  {| id := lit "x2";
     imageDataUrl := lit "data:image/png;base64,BBBB";
     mimeType := lit "image/png";
     prompt := lit "dog";
     timestamp := 2000 |}.

Definition bird : SavedImage :=
  {| id := lit "x3";
     imageDataUrl := lit "data:image/png;base64,CCCC";
     mimeType := lit "image/png";
     prompt := lit "bird";
     timestamp := 3000 |}.

(** The same image with one field emptied or zeroed. *)
Definition cat_without_prompt : SavedImage :=
  {| id := lit "x1";
     imageDataUrl := lit "data:image/png;base64,AAAA";
     mimeType := lit "image/png";
     prompt := [];
     timestamp := 1000 |}.

Definition cat_at_epoch : SavedImage :=
  {| id := lit "x1";
     imageDataUrl := lit "data:image/png;base64,AAAA";
     mimeType := lit "image/png";
     prompt := lit "cat";
     timestamp := 0 |}.

Definition cat_without_id : SavedImage :=
  {| id := [];
     imageDataUrl := lit "data:image/png;base64,AAAA";
     mimeType := lit "image/png";
     prompt := lit "cat";
     timestamp := 1000 |}.

Definition cat_without_image : SavedImage :=
  {| id := lit "x1";
     imageDataUrl := [];
     mimeType := lit "image/png";
     prompt := lit "cat";
     timestamp := 1000 |}.

(** A state in which the image of the scenario has just been generated
    and can be saved. *)
Definition generated : App.state :=
  {| App.library := [];
     App.outputImage := Some (lit "data:image/png;base64,AAAA");
     App.prompt := lit "cat";
     App.localStorage := None |}.

(** A state in which two images are in the library and a third one has
    just been generated. *)
Definition generated_third : App.state :=
  {| App.library := objects_of [dog; cat];
     App.outputImage := Some (lit "data:image/png;base64,CCCC");
     App.prompt := lit "bird";
     App.localStorage := None |}.

(** [setOutputImage]: the state with another generated image on
    display. *)
Definition showing (out : option jsstring) (st : App.state) : App.state :=
  {| App.library := App.library st; App.outputImage := out;
     App.prompt := App.prompt st; App.localStorage := App.localStorage st |}.

(** The prompt the specification asks the request functions to send. *)
Definition styled (prompt : jsstring) (style : option jsstring) : jsstring :=
  match style with
  | None => prompt
  | Some s => match s with [] => prompt | _ => prompt ++ [44%N; 32%N] ++ s end
  end.

(** The states the library reaches from the empty one when every save
    draws an id that is not in the library and every imported file is an
    array of objects whose valid entries have pairwise distinct ids.
    Between two operations the interface may change what is on display
    ([careful_ui]); the browser may refuse any of the writes. *)
Inductive careful : App.state -> Prop :=
  | careful_initial : careful App.initial
  | careful_ui (st st' : App.state) :
      careful st ->
      App.library st' = App.library st ->
      App.localStorage st' = App.localStorage st ->
      careful st'
  | careful_save (st : App.state) (now1 : Z) (random : number) (now2 : Z)
      (write : App.setItem) :
      careful st ->
      ~ In (Some (JStr (App.new_id now1 random))) (ids (App.library st)) ->
      careful (App.handleSaveToLibrary now1 random now2 write st)
  | careful_delete (st : App.state) (i : jsstring) (write : App.setItem) :
      careful st -> careful (App.handleDeleteFromLibrary i write st)
  | careful_import (st : App.state) (text : jsstring) (items : list object)
      (write : App.setItem) :
      careful st ->
      JSON.parse text = Some (App.array_of items) ->
      NoDup (ids (filter App.valid items)) ->
      careful (fst (App.handleImportLibrary text write st)).

(** Import payloads. *)
Definition payload_missing_timestamp : jsstring :=
  quoted "[{'id':'a','imageDataUrl':'d','prompt':'p'}]".

Definition payload_null_entry : jsstring := quoted "[null]".

Definition payload_null_then_valid : jsstring :=
  quoted "[null,{'id':'a','imageDataUrl':'d','prompt':'p','timestamp':1}]".

Definition payload_same_id_twice : jsstring :=
  quoted "[{'id':'a','imageDataUrl':'d','prompt':'p','timestamp':1},{'id':'a','imageDataUrl':'e','prompt':'q','timestamp':2}]".

Definition payload_three : jsstring :=
  quoted "[{'id':'x1','imageDataUrl':'data:image/png;base64,DDDD','prompt':'fish','timestamp':5},{'id':'a','imageDataUrl':'d','prompt':'p','timestamp':1},{'id':'b','imageDataUrl':'e','prompt':'q','timestamp':2}]".

Definition payload_cat : jsstring :=
  quoted "[{'id':'x1','imageDataUrl':'data:image/png;base64,BBBB','prompt':'dog','timestamp':5}]".

End Vocabulary.

(* ================================================================== *)
(** ** More of JavaScript: text *)
(* ================================================================== *)

Module JSText.
Import JS.

(** The string a source literal denotes when it goes beyond ASCII: the
    Rocq literal holds the UTF-8 bytes of the source file, and the
    JavaScript string holds UTF-16 code units.  The literals of the source
    are valid UTF-8; a sequence cut short gives U+FFFD. *)
Fixpoint utf16_of_utf8 (bytes : list N) : jsstring :=
  match bytes with
  | [] => []
  | b :: rest =>
      if (b <? 128)%N then b :: utf16_of_utf8 rest
      else if (b <? 224)%N then
        match rest with
        | b2 :: r2 =>
            (N.lor (N.shiftl (N.land b 31) 6) (N.land b2 63)) :: utf16_of_utf8 r2
        | [] => [65533%N]
        end
      else if (b <? 240)%N then
        match rest with
        | b2 :: b3 :: r3 =>
            (N.lor (N.shiftl (N.land b 15) 12)
               (N.lor (N.shiftl (N.land b2 63) 6) (N.land b3 63)))
              :: utf16_of_utf8 r3
        | _ => [65533%N]
        end
      else
        match rest with
        | b2 :: b3 :: b4 :: r4 =>
            let cp :=
              N.lor (N.shiftl (N.land b 7) 18)
                (N.lor (N.shiftl (N.land b2 63) 12)
                   (N.lor (N.shiftl (N.land b3 63) 6) (N.land b4 63))) in
            (55296 + N.shiftr (cp - 65536) 10)%N
              :: (56320 + N.land (cp - 65536) 1023)%N
              :: utf16_of_utf8 r4
        | _ => [65533%N]
        end
  end.

Definition text (s : string) : jsstring :=
  utf16_of_utf8 (map N_of_ascii (list_ascii_of_string s)).

(** [s.split(sep)] for a separator of one character: the pieces between
    the separators, one piece when there is none. *)
Fixpoint split (sep : char) (s : jsstring) : list jsstring :=
  match s with
  | [] => [[]]
  | c :: t =>
      if (c =? sep)%N then [] :: split sep t
      else
        match split sep t with
        | p :: ps => (c :: p) :: ps
        | [] => [[c]]
        end
  end.

(** [s.split(',')[1]]: the piece after the first comma, [undefined]
    ([None]) when the string has no comma. *)
Definition after_first_comma (s : jsstring) : option jsstring :=
  nth_error (split 44%N s) 1.

(** The class [\s] of regular expressions: white space and line
    terminators. *)
Definition is_space (c : char) : bool :=
  ((c =? 9) || (c =? 10) || (c =? 11) || (c =? 12) || (c =? 13) || (c =? 32)
   || (c =? 160) || (c =? 5760) || ((8192 <=? c) && (c <=? 8202))
   || (c =? 8232) || (c =? 8233) || (c =? 8239) || (c =? 8287)
   || (c =? 12288) || (c =? 65279))%N.

(** [s.replace(/\s+/g, '-')]: every maximal run of white space becomes
    one hyphen.  [in_run] says that the character before was white
    space. *)
Fixpoint replace_runs (in_run : bool) (s : jsstring) : jsstring :=
  match s with
  | [] => []
  | c :: t =>
      if is_space c then
        if in_run then replace_runs true t else 45%N :: replace_runs true t
      else c :: replace_runs false t
  end.

Definition replace_spaces (s : jsstring) : jsstring := replace_runs false s.

End JSText.

(* ================================================================== *)
(** ** [types.ts]: the enumerations and the option records *)
(* ================================================================== *)

Module Feature.

Inductive FeatureKey : Type :=
  | TEXT_TO_PHOTO | IMAGE_TO_PHOTO | IMAGE_FUSION | AI_MODEL | EDIT_PHOTO.

Definition eqb (a b : FeatureKey) : bool :=
  match a, b with
  | TEXT_TO_PHOTO, TEXT_TO_PHOTO | IMAGE_TO_PHOTO, IMAGE_TO_PHOTO
  | IMAGE_FUSION, IMAGE_FUSION | AI_MODEL, AI_MODEL | EDIT_PHOTO, EDIT_PHOTO => true
  | _, _ => false
  end.

Record FeatureConfig : Type := {
  key : FeatureKey;
  title : list N;
  description : list N;
  promptPlaceholder : list N;
  requiresImage : bool
}.

End Feature.

Module Style.

Inductive StyleKey : Type :=
  | NONE | VINTAGE | CINEMATIC | WATERCOLOR | NEON_PUNK | THREE_D_RENDER
  | REALISTIC | ARTISTIC | PORTRAIT.

Definition eqb (a b : StyleKey) : bool :=
  match a, b with
  | NONE, NONE | VINTAGE, VINTAGE | CINEMATIC, CINEMATIC
  | WATERCOLOR, WATERCOLOR | NEON_PUNK, NEON_PUNK
  | THREE_D_RENDER, THREE_D_RENDER | REALISTIC, REALISTIC
  | ARTISTIC, ARTISTIC | PORTRAIT, PORTRAIT => true
  | _, _ => false
  end.

Record StyleOption : Type := {
  key : StyleKey;
  name : list N;
  prompt : list N
}.

End Style.

(* ================================================================== *)
(** ** [constants.ts] *)
(* ================================================================== *)

Module constants.
Import JS JSText Feature Style.

Inductive Language : Type := en | vi.

(** [LocalizedFeatureInfo] and the entries of [LocalizedStyles]. *)
Record LocalizedFeatureInfo : Type := {
  title : jsstring;
  description : jsstring;
  promptPlaceholder : jsstring
}.

Record LocalizedStyle : Type := { name : jsstring; prompt : jsstring }.

Definition FEATURES_CONFIG (k : FeatureKey) : bool :=
  match k with
  | TEXT_TO_PHOTO => false
  | IMAGE_TO_PHOTO => true
  | IMAGE_FUSION => true
  | AI_MODEL => true
  | EDIT_PHOTO => true
  end.

Definition LOCALIZED_FEATURES (l : Language) (k : FeatureKey) : LocalizedFeatureInfo :=
  match l, k with
  | en, TEXT_TO_PHOTO =>
      {| title := text "Text-to-Photo";
         description := text "AI will generate a complete photo based on your description.";
         promptPlaceholder := text "e.g., A female model in a red dress, posing by the sea, sunset lighting" |}
  | en, IMAGE_TO_PHOTO =>
      {| title := text "Image-to-Photo";
         description := text "Upload a portrait and describe the changes you want. Transform outfits, hairstyles, or backgrounds.";
         promptPlaceholder := text "e.g., Change her outfit to a black leather jacket and the background to a neon-lit city street at night" |}
  | en, IMAGE_FUSION =>
      {| title := text "Image Fusion";
         description := text "Upload two photos and describe how you want the AI to combine them into a unique creation.";
         promptPlaceholder := text "e.g., Place the person from image 1 into the scene from image 2" |}
  | en, AI_MODEL =>
      {| title := text "AI Model";
         description := text "For fashion and e-commerce. Upload a product photo and let AI generate a model wearing it.";
         promptPlaceholder := text "e.g., Place this handbag on the arm of a fashion model walking in Paris" |}
  | en, EDIT_PHOTO =>
      {| title := text "AI Photo Editing";
         description := text "Automatically beautify faces, change backgrounds, or turn a selfie into a professional headshot.";
         promptPlaceholder := text "e.g., Remove the background, improve skin lighting, and make it a professional linkedin profile picture" |}
  | vi, TEXT_TO_PHOTO =>
      {| title := text "Tạo ảnh từ văn bản";
         description := text "AI sẽ tạo ra một bức ảnh hoàn chỉnh theo mô tả của bạn.";
         promptPlaceholder := text "VD: Người mẫu nữ mặc váy đỏ, tạo dáng bên biển, ánh sáng hoàng hôn" |}
  | vi, IMAGE_TO_PHOTO =>
      {| title := text "Tạo ảnh từ ảnh có sẵn";
         description := text "Tải lên ảnh chân dung và mô tả thay đổi bạn muốn. Biến đổi trang phục, kiểu tóc, hoặc phong cảnh.";
         promptPlaceholder := text "VD: Đổi trang phục thành áo khoác da đen và nền thành đường phố buổi đêm với đèn neon" |}
  | vi, IMAGE_FUSION =>
      {| title := text "Kết hợp ảnh";
         description := text "Tải lên hai ảnh và mô tả cách bạn muốn AI kết hợp chúng thành một tác phẩm độc đáo.";
         promptPlaceholder := text "VD: Đặt người trong ảnh 1 vào bối cảnh của ảnh 2" |}
  | vi, AI_MODEL =>
      {| title := text "Tạo người mẫu AI";
         description := text "Dành cho thời trang và thương mại điện tử. Tải ảnh sản phẩm và AI sẽ tạo người mẫu mặc nó.";
         promptPlaceholder := text "VD: Đặt chiếc túi xách này lên tay một người mẫu thời trang đang đi dạo ở Paris" |}
  | vi, EDIT_PHOTO =>
      {| title := text "Chỉnh sửa ảnh bằng AI";
         description := text "Tự động làm đẹp khuôn mặt, thay đổi hậu cảnh, hoặc biến ảnh selfie thành ảnh chân dung chuyên nghiệp.";
         promptPlaceholder := text "VD: Xóa nền, cải thiện ánh sáng da, và biến nó thành ảnh đại diện linkedin chuyên nghiệp" |}
  end.

Definition LOCALIZED_STYLES (l : Language) (k : StyleKey) : LocalizedStyle :=
  match l, k with
  | en, NONE =>
      {| name := text "Default Style";
         prompt := [] |}
  | en, VINTAGE =>
      {| name := text "Vintage";
         prompt := text "vintage photo, grainy film, retro aesthetic, 1970s style" |}
  | en, CINEMATIC =>
      {| name := text "Cinematic";
         prompt := text "cinematic lighting, dramatic atmosphere, high detail, wide angle shot, movie still" |}
  | en, WATERCOLOR =>
      {| name := text "Watercolor";
         prompt := text "watercolor painting, soft brush strokes, vibrant colors, artistic" |}
  | en, NEON_PUNK =>
      {| name := text "Neon Punk";
         prompt := text "neon punk aesthetic, cyberpunk, vibrant glowing colors, futuristic city, moody lighting" |}
  | en, THREE_D_RENDER =>
      {| name := text "3D Render";
         prompt := text "3D render, photorealistic, high detail, octane render, trending on artstation" |}
  | en, REALISTIC =>
      {| name := text "Hyper-Realistic";
         prompt := text "photo-realistic, DSLR, 8k, real skin texture" |}
  | en, ARTISTIC =>
      {| name := text "Artistic";
         prompt := text "cinematic, soft lighting, artistic composition" |}
  | en, PORTRAIT =>
      {| name := text "Close-up Portrait";
         prompt := text "close-up portrait, depth of field, bokeh" |}
  | vi, NONE =>
      {| name := text "Phong cách mặc định";
         prompt := [] |}
  | vi, VINTAGE =>
      {| name := text "Cổ điển (Vintage)";
         prompt := text "ảnh cổ điển, film nhiễu hạt, thẩm mỹ retro, phong cách 1970s" |}
  | vi, CINEMATIC =>
      {| name := text "Điện ảnh (Cinematic)";
         prompt := text "ánh sáng điện ảnh, không khí kịch tính, chi tiết cao, góc rộng, cảnh phim" |}
  | vi, WATERCOLOR =>
      {| name := text "Màu nước";
         prompt := text "tranh màu nước, nét cọ mềm mại, màu sắc rực rỡ, nghệ thuật" |}
  | vi, NEON_PUNK =>
      {| name := text "Neon Punk";
         prompt := text "thẩm mỹ neon punk, cyberpunk, màu sắc phát sáng rực rỡ, thành phố tương lai, ánh sáng u tối" |}
  | vi, THREE_D_RENDER =>
      {| name := text "Kết xuất 3D";
         prompt := text "kết xuất 3D, siêu thực, chi tiết cao, octane render, thịnh hành trên artstation" |}
  | vi, REALISTIC =>
      {| name := text "Siêu thực";
         prompt := text "photo-realistic, DSLR, 8k, real skin texture" |}
  | vi, ARTISTIC =>
      {| name := text "Nghệ thuật";
         prompt := text "cinematic, soft lighting, artistic composition" |}
  | vi, PORTRAIT =>
      {| name := text "Chân dung cận cảnh";
         prompt := text "close-up portrait, depth of field, bokeh" |}
  end.

(** The entries of [UI_TEXT] that the handlers and the modelled components
    read. *)
Definition errorTitle (l : Language) : jsstring :=
  match l with
  | en => text "An error occurred"
  | vi => text "Đã xảy ra lỗi"
  end.

Definition errorMessage (l : Language) : jsstring :=
  match l with
  | en => text "Could not generate image. Please check your prompt or try again later."
  | vi => text "Không thể tạo ảnh. Vui lòng kiểm tra mô tả hoặc thử lại sau."
  end.

Definition uploadImage (l : Language) : jsstring :=
  match l with
  | en => text "Upload an image"
  | vi => text "Tải ảnh lên"
  end.

Definition uploadImage1 (l : Language) : jsstring :=
  match l with
  | en => text "Upload Image 1"
  | vi => text "Tải ảnh 1"
  end.

Definition uploadImage2 (l : Language) : jsstring :=
  match l with
  | en => text "Upload Image 2"
  | vi => text "Tải ảnh 2"
  end.

End constants.
(* ================================================================== *)
(** ** [App.tsx]: the studio around the library *)
(* ================================================================== *)

Module Studio.
Import JS JSText.

(** An uploaded or reused image as the component holds it. *)
Record InputImage : Type := {
  base64 : jsstring;
  mimeType : jsstring;
  dataUrl : jsstring
}.

(** The state of the component: its state variables, the reference
    [promptRef], and in [store] the four items the library handlers work
    on (library, outputImage, prompt, storage). *)
Record ui : Type := {
  language : constants.Language;
  activeTab : Feature.FeatureKey;
  selectedStyle : Style.StyleKey;
  aspectRatio : types.AspectRatio;
  inputImage : option InputImage;
  inputImage2 : option InputImage;
  isLoading : bool;
  error : option jsstring;
  isLibraryOpen : bool;
  isListening : bool;
  isSpeechSupported : bool;
  promptRef : jsstring;
  store : App.state
}.

(** The state setters.  [setPrompt], [setOutputImage] and [setLibrary]
    write into [store]. *)
Definition setLanguage (v : constants.Language) (st : ui) : ui :=
  {| language := v;
     activeTab := activeTab st;
     selectedStyle := selectedStyle st;
     aspectRatio := aspectRatio st;
     inputImage := inputImage st;
     inputImage2 := inputImage2 st;
     isLoading := isLoading st;
     error := error st;
     isLibraryOpen := isLibraryOpen st;
     isListening := isListening st;
     isSpeechSupported := isSpeechSupported st;
     promptRef := promptRef st;
     store := store st |}.

Definition setActiveTab (v : Feature.FeatureKey) (st : ui) : ui :=
  {| language := language st;
     activeTab := v;
     selectedStyle := selectedStyle st;
     aspectRatio := aspectRatio st;
     inputImage := inputImage st;
     inputImage2 := inputImage2 st;
     isLoading := isLoading st;
     error := error st;
     isLibraryOpen := isLibraryOpen st;
     isListening := isListening st;
     isSpeechSupported := isSpeechSupported st;
     promptRef := promptRef st;
     store := store st |}.

Definition setSelectedStyle (v : Style.StyleKey) (st : ui) : ui :=
  {| language := language st;
     activeTab := activeTab st;
     selectedStyle := v;
     aspectRatio := aspectRatio st;
     inputImage := inputImage st;
     inputImage2 := inputImage2 st;
     isLoading := isLoading st;
     error := error st;
     isLibraryOpen := isLibraryOpen st;
     isListening := isListening st;
     isSpeechSupported := isSpeechSupported st;
     promptRef := promptRef st;
     store := store st |}.

Definition setAspectRatio (v : types.AspectRatio) (st : ui) : ui :=
  {| language := language st;
     activeTab := activeTab st;
     selectedStyle := selectedStyle st;
     aspectRatio := v;
     inputImage := inputImage st;
     inputImage2 := inputImage2 st;
     isLoading := isLoading st;
     error := error st;
     isLibraryOpen := isLibraryOpen st;
     isListening := isListening st;
     isSpeechSupported := isSpeechSupported st;
     promptRef := promptRef st;
     store := store st |}.

Definition setInputImage (v : option InputImage) (st : ui) : ui :=
  {| language := language st;
     activeTab := activeTab st;
     selectedStyle := selectedStyle st;
     aspectRatio := aspectRatio st;
     inputImage := v;
     inputImage2 := inputImage2 st;
     isLoading := isLoading st;
     error := error st;
     isLibraryOpen := isLibraryOpen st;
     isListening := isListening st;
     isSpeechSupported := isSpeechSupported st;
     promptRef := promptRef st;
     store := store st |}.

Definition setInputImage2 (v : option InputImage) (st : ui) : ui :=
  {| language := language st;
     activeTab := activeTab st;
     selectedStyle := selectedStyle st;
     aspectRatio := aspectRatio st;
     inputImage := inputImage st;
     inputImage2 := v;
     isLoading := isLoading st;
     error := error st;
     isLibraryOpen := isLibraryOpen st;
     isListening := isListening st;
     isSpeechSupported := isSpeechSupported st;
     promptRef := promptRef st;
     store := store st |}.

Definition setIsLoading (v : bool) (st : ui) : ui :=
  {| language := language st;
     activeTab := activeTab st;
     selectedStyle := selectedStyle st;
     aspectRatio := aspectRatio st;
     inputImage := inputImage st;
     inputImage2 := inputImage2 st;
     isLoading := v;
     error := error st;
     isLibraryOpen := isLibraryOpen st;
     isListening := isListening st;
     isSpeechSupported := isSpeechSupported st;
     promptRef := promptRef st;
     store := store st |}.

Definition setError (v : option jsstring) (st : ui) : ui :=
  {| language := language st;
     activeTab := activeTab st;
     selectedStyle := selectedStyle st;
     aspectRatio := aspectRatio st;
     inputImage := inputImage st;
     inputImage2 := inputImage2 st;
     isLoading := isLoading st;
     error := v;
     isLibraryOpen := isLibraryOpen st;
     isListening := isListening st;
     isSpeechSupported := isSpeechSupported st;
     promptRef := promptRef st;
     store := store st |}.

Definition setIsLibraryOpen (v : bool) (st : ui) : ui :=
  {| language := language st;
     activeTab := activeTab st;
     selectedStyle := selectedStyle st;
     aspectRatio := aspectRatio st;
     inputImage := inputImage st;
     inputImage2 := inputImage2 st;
     isLoading := isLoading st;
     error := error st;
     isLibraryOpen := v;
     isListening := isListening st;
     isSpeechSupported := isSpeechSupported st;
     promptRef := promptRef st;
     store := store st |}.

Definition setIsListening (v : bool) (st : ui) : ui :=
  {| language := language st;
     activeTab := activeTab st;
     selectedStyle := selectedStyle st;
     aspectRatio := aspectRatio st;
     inputImage := inputImage st;
     inputImage2 := inputImage2 st;
     isLoading := isLoading st;
     error := error st;
     isLibraryOpen := isLibraryOpen st;
     isListening := v;
     isSpeechSupported := isSpeechSupported st;
     promptRef := promptRef st;
     store := store st |}.

Definition setIsSpeechSupported (v : bool) (st : ui) : ui :=
  {| language := language st;
     activeTab := activeTab st;
     selectedStyle := selectedStyle st;
     aspectRatio := aspectRatio st;
     inputImage := inputImage st;
     inputImage2 := inputImage2 st;
     isLoading := isLoading st;
     error := error st;
     isLibraryOpen := isLibraryOpen st;
     isListening := isListening st;
     isSpeechSupported := v;
     promptRef := promptRef st;
     store := store st |}.

Definition setPromptRef (v : jsstring) (st : ui) : ui :=
  {| language := language st;
     activeTab := activeTab st;
     selectedStyle := selectedStyle st;
     aspectRatio := aspectRatio st;
     inputImage := inputImage st;
     inputImage2 := inputImage2 st;
     isLoading := isLoading st;
     error := error st;
     isLibraryOpen := isLibraryOpen st;
     isListening := isListening st;
     isSpeechSupported := isSpeechSupported st;
     promptRef := v;
     store := store st |}.

Definition setStore (v : App.state) (st : ui) : ui :=
  {| language := language st;
     activeTab := activeTab st;
     selectedStyle := selectedStyle st;
     aspectRatio := aspectRatio st;
     inputImage := inputImage st;
     inputImage2 := inputImage2 st;
     isLoading := isLoading st;
     error := error st;
     isLibraryOpen := isLibraryOpen st;
     isListening := isListening st;
     isSpeechSupported := isSpeechSupported st;
     promptRef := promptRef st;
     store := v |}.

Definition setPrompt (v : jsstring) (st : ui) : ui :=
  setStore {| App.library := App.library (store st);
              App.outputImage := App.outputImage (store st);
              App.prompt := v;
              App.localStorage := App.localStorage (store st) |} st.

Definition setOutputImage (v : option jsstring) (st : ui) : ui :=
  setStore {| App.library := App.library (store st);
              App.outputImage := v;
              App.prompt := App.prompt (store st);
              App.localStorage := App.localStorage (store st) |} st.

Definition prompt (st : ui) : jsstring := App.prompt (store st).
Definition outputImage (st : ui) : option jsstring := App.outputImage (store st).
Definition library (st : ui) : list object := App.library (store st).

(** The values of the [useState] calls. *)
Definition initial : ui :=
  {| language := constants.en;
     activeTab := Feature.TEXT_TO_PHOTO;
     selectedStyle := Style.NONE;
     aspectRatio := types.R1_1;
     inputImage := None;
     inputImage2 := None;
     isLoading := false;
     error := None;
     isLibraryOpen := false;
     isListening := false;
     isSpeechSupported := false;
     promptRef := [];
     store := App.initial |}.

(** [features]: one entry per key of the enumeration, in its order, made
    of the key, [FEATURES_CONFIG] and the localized texts. *)
Definition features (l : constants.Language) : list Feature.FeatureConfig :=
  map (fun k =>
         {| Feature.key := k;
            Feature.title := constants.title (constants.LOCALIZED_FEATURES l k);
            Feature.description := constants.description (constants.LOCALIZED_FEATURES l k);
            Feature.promptPlaceholder :=
              constants.promptPlaceholder (constants.LOCALIZED_FEATURES l k);
            Feature.requiresImage := constants.FEATURES_CONFIG k |})
      [Feature.TEXT_TO_PHOTO; Feature.IMAGE_TO_PHOTO; Feature.IMAGE_FUSION;
       Feature.AI_MODEL; Feature.EDIT_PHOTO].

Definition styles (l : constants.Language) : list Style.StyleOption :=
  map (fun k =>
         {| Style.key := k;
            Style.name := constants.name (constants.LOCALIZED_STYLES l k);
            Style.prompt := constants.prompt (constants.LOCALIZED_STYLES l k) |})
      [Style.NONE; Style.VINTAGE; Style.CINEMATIC; Style.WATERCOLOR;
       Style.NEON_PUNK; Style.THREE_D_RENDER; Style.REALISTIC; Style.ARTISTIC;
       Style.PORTRAIT].

(** [features.find(f => f.key === activeTab)!]; [None] is [undefined]. *)
Definition activeFeature (st : ui) : option Feature.FeatureConfig :=
  find (fun f => Feature.eqb (Feature.key f) (activeTab st)) (features (language st)).

(** [styles.find(s => s.key === selectedStyle)?.prompt]. *)
Definition stylePrompt (st : ui) : option jsstring :=
  option_map Style.prompt
    (find (fun s => Style.eqb (Style.key s) (selectedStyle st)) (styles (language st))).

(** The effect on [[activeTab]]: it runs after a render in which the
    active tab differs from the one of the render before. *)
Definition tabEffect (st : ui) : ui :=
  setError None (setOutputImage None (setInputImage2 None (setInputImage None
    (setPrompt [] st)))).

(** What an event leaves once React has rendered and run the effects:
    [before] is the state the handler started from, [after] the state its
    setters produced. *)
Definition commit (before after : ui) : ui :=
  if Feature.eqb (activeTab before) (activeTab after) then after
  else tabEffect after.

(** A click on a tab of [FeatureTabs]. *)
Definition selectTab (k : Feature.FeatureKey) (st : ui) : ui :=
  commit st (setActiveTab k st).

(** A file chosen by the user: its media type and what [readAsDataURL]
    gives, [None] when the reader fails. *)
Record File : Type := { type : jsstring; contents : option jsstring }.

(** How a promise of a typed value ends.  [OffType]: it resolves with
    [undefined] where the declared type says [string] (a data URL
    without comma); the model does not follow the program there. *)
Inductive settled (A : Type) : Type :=
  | Resolved (a : A)
  | Rejected
  | OffType.
Arguments Resolved {A} a.
Arguments Rejected {A}.
Arguments OffType {A}.

Definition fileToBase64 (file : File) : settled InputImage :=
  match contents file with
  | None => Rejected
  | Some url =>
      match after_first_comma url with
      | Some b => Resolved {| base64 := b; mimeType := type file; dataUrl := url |}
      | None => OffType
      end
  end.

Inductive slot : Type := slot1 | slot2.

(** [handleImageUpload], taken as one step from the choice of the file
    to the end of the reading. *)
Definition handleImageUpload (file : option File) (imageSlot : slot) (st : ui) :
    option ui :=
  match file with
  | None => Some st
  | Some f =>
      let st1 := setError None st in
      match fileToBase64 f with
      | Resolved imageData =>
          Some (match imageSlot with
                | slot1 => setInputImage (Some imageData) st1
                | slot2 => setInputImage2 (Some imageData) st1
                end)
      | Rejected => Some (setError (Some (constants.errorTitle (language st))) st1)
      | OffType => None
      end
  end.

(** [handleUseImageFromLibrary] on an image of the declared type; [None]
    when the data URL has no comma, so that [base64] is [undefined]. *)
Definition handleUseImageFromLibrary (image : types.SavedImage) (st : ui) : option ui :=
  match after_first_comma (types.imageDataUrl image) with
  | None => None
  | Some b =>
      let reused := {| base64 := b; mimeType := types.mimeType image;
                       dataUrl := types.imageDataUrl image |} in
      let st1 :=
        match activeTab st, inputImage st with
        | Feature.IMAGE_FUSION, Some _ => setInputImage2 (Some reused) st
        | Feature.IMAGE_FUSION, None => setInputImage (Some reused) st
        | _, _ => setActiveTab Feature.IMAGE_TO_PHOTO (setInputImage (Some reused) st)
        end in
      Some (setIsLibraryOpen false st1)
  end.

(** The click on [Use this Image], effects included. *)
Definition useImage (image : types.SavedImage) (st : ui) : option ui :=
  option_map (commit st) (handleUseImageFromLibrary image st).

Definition image_of (i : InputImage) : geminiService.ImageInput :=
  {| geminiService.base64 := base64 i; geminiService.mimeType := mimeType i |}.

(** The call [handleGenerate] makes on the service, from the state of the
    render in which the button was clicked.  [None]: reading
    [activeFeature.requiresImage] throws because no feature was found. *)
Definition generation (ai : geminiService.service) (st : ui) :
    option geminiService.outcome :=
  match activeTab st, inputImage st, inputImage2 st with
  | Feature.IMAGE_FUSION, Some i1, Some i2 =>
      Some (geminiService.generateImageFromTwoImages ai (prompt st)
              (image_of i1) (image_of i2) (stylePrompt st))
  | _, _, _ =>
      match activeFeature st with
      | None => None
      | Some f =>
          match Feature.requiresImage f, inputImage st with
          | true, Some i =>
              Some (geminiService.generateImageFromImage ai (prompt st)
                      (image_of i) (stylePrompt st))
          | _, _ =>
              Some (geminiService.generateImageFromText ai (prompt st)
                      (stylePrompt st) (aspectRatio st))
          end
      end
  end.

(** The image [handleGenerate] obtained, [None] when anything inside its
    [try] threw. *)
Definition generated_image (ai : geminiService.service) (st : ui) : option jsstring :=
  match generation ai st with
  | Some o => geminiService.returned o
  | None => None
  end.

(** [handleGenerate] before the call ... *)
Definition handleGenerate_begin (st : ui) : ui :=
  setError None (setOutputImage None (setIsLoading true st)).

(** ... and after it: [clicked] is the state of the render in which the
    button was clicked (its language gives the error text), [st] the
    state at the time the call ends. *)
Definition handleGenerate_end (clicked : ui) (result : option jsstring) (st : ui) : ui :=
  setIsLoading false
    match result with
    | Some resultBase64 =>
        setOutputImage (Some (lit "data:image/png;base64," ++ resultBase64)) st
    | None => setError (Some (constants.errorMessage (language clicked))) st
    end.

(** [handleGenerate] when nothing else happens during the call. *)
Definition handleGenerate (ai : geminiService.service) (st : ui) : ui :=
  handleGenerate_end st (generated_image ai st) (handleGenerate_begin st).

(** [isGenerateDisabled]; [None] where [activeFeature.requiresImage]
    would throw. *)
Definition isGenerateDisabled (st : ui) : option bool :=
  if isLoading st || match prompt st with [] => true | _ => false end then Some true
  else if Feature.eqb (activeTab st) Feature.TEXT_TO_PHOTO then Some false
  else if Feature.eqb (activeTab st) Feature.IMAGE_FUSION then
    Some (match inputImage st, inputImage2 st with
          | Some _, Some _ => false
          | _, _ => true
          end)
  else
    match activeFeature st with
    | None => None
    | Some f =>
        if Feature.requiresImage f then
          Some (match inputImage st with Some _ => false | None => true end)
        else Some true
    end.

(** The library handlers on the state of the component. *)
Definition onSave (now1 : Z) (random : number) (now2 : Z) (write : App.setItem)
    (st : ui) : ui :=
  setStore (App.handleSaveToLibrary now1 random now2 write (store st)) st.

Definition onDelete (id : jsstring) (write : App.setItem) (st : ui) : ui :=
  setStore (App.handleDeleteFromLibrary id write (store st)) st.

Definition isSaved (st : ui) : bool := App.isSaved (store st).

(** Dictation.  [handleToggleListening]: without speech recognition
    [recognitionRef.current] is [null] and nothing happens; while
    listening the click only asks the recognition to stop, and the state
    changes when [onend] fires. *)
Definition handleToggleListening (st : ui) : ui :=
  if negb (isSpeechSupported st) then st
  else if isListening st then st
  else
    let typed := match prompt st with [] => [] | p => p ++ [32%N] end in
    let st1 := setPromptRef typed st in
    let st2 := match typed with [] => st1 | _ => setPrompt typed st1 end in
    setIsListening true st2.

(** [recognition.onresult]: [transcripts] are the first alternatives of
    all the results of the event, in order. *)
Definition onresult (transcripts : list jsstring) (st : ui) : ui :=
  setPrompt (promptRef st ++ concat transcripts) st.

Definition onend (st : ui) : ui := setIsListening false st.

(** What reaches the prompt while the recognition runs: the user types
    in the text area ([onChange], the new value of the area), or the
    recognition reports results. *)
Inductive dictation_event : Type :=
  | typing (value : jsstring)
  | hearing (transcripts : list jsstring).

Definition dictation_step (st : ui) (e : dictation_event) : ui :=
  match e with
  | typing value => setPrompt value st
  | hearing transcripts => onresult transcripts st
  end.

End Studio.

(* ================================================================== *)
(** ** [App.tsx]: the sub-components *)
(* ================================================================== *)

Module Components.
Import JS JSText.

(** [ImageUploader]: the id that ties the label to the file input. *)
Definition uniqueId (label : jsstring) : jsstring :=
  lit "file-upload-" ++ replace_spaces label.

(** What [OutputPanel] shows. *)
Inductive block : Type :=
  | Spinner
  | ErrorText (title message : jsstring)
  | Output (src : jsstring) (saveDisabled : bool)
  | Placeholder.

Definition nonempty (s : option jsstring) : bool :=
  match s with Some (_ :: _) => true | _ => false end.

(** The four conditional blocks of [OutputPanel], in the order of the
    source; an empty string counts as absent. *)
Definition OutputPanel (outputImage : option jsstring) (isLoading : bool)
    (error : option jsstring) (T : constants.Language) (isSaved : bool) : list block :=
  (if isLoading then [Spinner] else [])
  ++ (if negb isLoading && nonempty error
      then [ErrorText (constants.errorTitle T)
              (match error with Some e => e | None => [] end)] else [])
  ++ (if negb isLoading && negb (nonempty error) && nonempty outputImage
      then [Output (match outputImage with Some o => o | None => [] end) isSaved] else [])
  ++ (if negb isLoading && negb (nonempty error) && negb (nonempty outputImage)
      then [Placeholder] else []).

(** The panel as [App] renders it. *)
Definition panel (st : Studio.ui) : list block :=
  OutputPanel (Studio.outputImage st) (Studio.isLoading st) (Studio.error st)
    (Studio.language st) (Studio.isSaved st).

End Components.

(* ================================================================== *)
(** ** Sessions *)
(* ================================================================== *)

Module Sessions.
Import JS.

(** The states of the library a session reaches from the empty one by
    saving (with a clock that does not read zero when the time stamp is
    taken), deleting, and importing files that the application exported
    from such a state, in a browser that answers every write in one of
    the ways [browser] allows.  Between two operations the interface may
    change the prompt and the image on display. *)
Inductive built (browser : App.setItem -> Prop) : App.state -> Prop :=
  | built_initial : built browser App.initial
  | built_ui (st st' : App.state) :
      built browser st ->
      App.library st' = App.library st ->
      App.localStorage st' = App.localStorage st ->
      built browser st'
  | built_save (st : App.state) (now1 : Z) (random : number) (now2 : Z)
      (write : App.setItem) :
      built browser st -> browser write -> now2 <> 0%Z ->
      built browser (App.handleSaveToLibrary now1 random now2 write st)
  | built_delete (st : App.state) (id : jsstring) (write : App.setItem) :
      built browser st -> browser write ->
      built browser (App.handleDeleteFromLibrary id write st)
  | built_import (st from : App.state) (file : jsstring) (write : App.setItem) :
      built browser st -> built browser from -> browser write ->
      App.handleExportLibrary from = Some file ->
      built browser (fst (App.handleImportLibrary file write st)).

(** A browser that may refuse any write, and one that takes them all. *)
Definition any_browser (write : App.setItem) : Prop := True.
Definition storing_browser (write : App.setItem) : Prop := write = App.stores.

(** The shape of the libraries a session builds: typed images that pass
    the import filter. *)
Definition typed (st : App.state) : Prop :=
  exists l, App.library st = Vocabulary.objects_of l /\ Forall Vocabulary.importable l.

(** Storage in step with the state: it holds the text of the library, or
    nothing while the library is empty. *)
Definition in_step (st : App.state) : Prop :=
  App.localStorage st = Some (JSON.stringify (App.array_of (App.library st)))
  \/ (App.localStorage st = None /\ App.library st = []).

End Sessions.

(* ================================================================== *)
(** ** Facts about the JavaScript model *)
(* ================================================================== *)

Module JSFacts.
Import JS.

Lemma eqb_string_refl (s : jsstring) : eqb_string s s = true.
Proof.
  induction s as [|c s IH]; simpl; [reflexivity|].
  now rewrite N.eqb_refl, IH.
Qed.

Lemma eqb_string_eq (a b : jsstring) : eqb_string a b = true <-> a = b.
Proof.
  split.
  - revert b; induction a as [|x a IH]; intros [|y b]; simpl; try congruence.
    intros H. apply andb_true_iff in H as [Hxy Hab].
    apply N.eqb_eq in Hxy. apply IH in Hab. congruence.
  - intros ->. apply eqb_string_refl.
Qed.

Lemma eqb_string_neq (a b : jsstring) : eqb_string a b = false <-> a <> b.
Proof.
  rewrite <- eqb_string_eq. destruct (eqb_string a b); intuition congruence.
Qed.

End JSFacts.

(* ================================================================== *)
(** ** Facts about [JSON.parse] and [JSON.stringify] *)
(* ================================================================== *)

Module JSONFacts.
Import JS JSON.

(** *** Strings *)

Lemma hex_value_digit (n : N) : (n < 16)%N -> hex_value (hex_digit n) = Some n.
Proof.
  intros H. unfold hex_digit, hex_value.
  destruct (N.ltb_spec n 10).
  - replace ((48 <=? 48 + n) && (48 + n <=? 57))%N with true.
    + f_equal. lia.
    + symmetry. apply andb_true_iff. split; apply N.leb_le; lia.
  - replace ((48 <=? 87 + n) && (87 + n <=? 57))%N with false.
    + replace ((97 <=? 87 + n) && (87 + n <=? 102))%N with true.
      * f_equal. lia.
      * symmetry. apply andb_true_iff. split; apply N.leb_le; lia.
    + symmetry. apply andb_false_iff. right. apply N.leb_gt. lia.
Qed.

Lemma nibble_lt (c : N) : (N.land c 15 < 16)%N.
Proof.
  change 15%N with (N.ones 4). rewrite N.land_ones.
  apply N.mod_lt. discriminate.
Qed.

Lemma nibbles_value (c : N) :
  (c < 65536)%N ->
  (((N.land (N.shiftr c 12) 15 * 16 + N.land (N.shiftr c 8) 15) * 16
    + N.land (N.shiftr c 4) 15) * 16 + N.land c 15 = c)%N.
Proof.
  intros H.
  change 15%N with (N.ones 4). rewrite !N.land_ones, !N.shiftr_div_pow2.
  change (2 ^ 12)%N with 4096%N. change (2 ^ 8)%N with 256%N.
  change (2 ^ 4)%N with 16%N.
  pose proof (N.div_mod c 16 ltac:(discriminate)) as H0.
  pose proof (N.div_mod (c / 16) 16 ltac:(discriminate)) as H1.
  pose proof (N.div_mod (c / 16 / 16) 16 ltac:(discriminate)) as H2.
  rewrite N.Div0.div_div in H1, H2. rewrite N.Div0.div_div in H2.
  change (16 * 16)%N with 256%N in *. change (256 * 16)%N with 4096%N in *.
  assert (c / 4096 < 16)%N by (apply N.Div0.div_lt_upper_bound; lia).
  rewrite (N.mod_small (c / 4096) 16) by assumption.
  lia.
Qed.

Lemma hex4_escape (c : char) (r : jsstring) :
  (c < 65536)%N ->
  lex_string (UnicodeEscape c ++ r) = prepend c (lex_string r).
Proof.
  intros H. unfold UnicodeEscape.
  change (lex_string ([92%N; 117%N; ?a; ?b; ?c'; ?d] ++ r))
    with (match hex4 a b c' d with
          | Some u => prepend u (lex_string r)
          | None => None
          end).
  unfold hex4. rewrite !hex_value_digit by apply nibble_lt.
  now rewrite nibbles_value.
Qed.


Lemma lex_string_plain (c : char) (r : jsstring) :
  (32 <= c)%N -> c <> 34%N -> c <> 92%N ->
  lex_string (c :: r) = prepend c (lex_string r).
Proof.
  intros H32 H34 H92. cbn [lex_string].
  apply N.eqb_neq in H34, H92. rewrite H34, H92.
  apply N.ltb_ge in H32. now rewrite H32.
Qed.

Lemma surrogate_range (c : char) :
  is_high_surrogate c || is_low_surrogate c = true -> (55296 <= c < 65536)%N.
Proof.
  unfold is_high_surrogate, is_low_surrogate. intros H.
  apply orb_true_iff in H as [H|H]; apply andb_true_iff in H as [H1 H2];
    apply N.leb_le in H1, H2; lia.
Qed.

Lemma lex_string_quote_char (c : char) (r : jsstring) :
  lex_string (quote_char c ++ r) = prepend c (lex_string r).
Proof.
  unfold quote_char.
  repeat match goal with
  | |- context [(c =? ?k)%N] => destruct (N.eqb_spec c k); [subst c; reflexivity|]
  end.
  destruct (N.ltb_spec c 32).
  - apply hex4_escape. lia.
  - destruct (is_high_surrogate c || is_low_surrogate c) eqn:Hs.
    + apply hex4_escape. apply surrogate_range in Hs. lia.
    + now apply lex_string_plain.
Qed.

Lemma lex_string_pair (c c2 : char) (r : jsstring) :
  is_high_surrogate c = true -> is_low_surrogate c2 = true ->
  lex_string (c :: c2 :: r) = prepend c (prepend c2 (lex_string r)).
Proof.
  intros H1 H2.
  assert (55296 <= c < 65536)%N by (apply surrogate_range; now rewrite H1).
  assert (55296 <= c2 < 65536)%N
    by (apply surrogate_range; rewrite H2; apply orb_true_r).
  rewrite !lex_string_plain by lia. reflexivity.
Qed.

(** Reading back a quoted string gives the string. *)
Lemma lex_string_quote_chars (s r : jsstring) :
  lex_string (quote_chars s ++ 34%N :: r) = Some (s, r).
Proof.
  remember (List.length s) as n eqn:Hn.
  revert s Hn r. induction n as [n IH] using lt_wf_ind. intros s Hn r.
  destruct s as [|c t]; [reflexivity|].
  cbn [quote_chars].
  destruct (is_high_surrogate c) eqn:Hc.
  - destruct t as [|c2 t2].
    + rewrite lex_string_quote_char. reflexivity.
    + destruct (is_low_surrogate c2) eqn:Hc2.
      * cbn [List.app]. rewrite lex_string_pair by assumption.
        rewrite (IH (List.length t2)) by (simpl in Hn; lia || reflexivity).
        reflexivity.
      * rewrite <- app_assoc, lex_string_quote_char.
        rewrite (IH (List.length (c2 :: t2))) by (simpl in *; lia || reflexivity).
        reflexivity.
  - rewrite <- app_assoc, lex_string_quote_char.
    rewrite (IH (List.length t)) by (simpl in *; lia || reflexivity).
    reflexivity.
Qed.


(** *** Numbers *)

Lemma is_digit_chars_head (d : uint) :
  d <> Nil -> exists c t, chars_of_uint d = c :: t /\ is_digit c = true.
Proof.
  destruct d; intros H; try congruence; cbn [chars_of_uint]; eauto.
Qed.

Lemma not_digit_delimited (c : char) (r : jsstring) :
  delimited (c :: r) = true -> is_digit c = false.
Proof.
  cbn [delimited]. intros H. apply negb_true_iff in H.
  now repeat (apply orb_false_iff in H as [H _]).
Qed.

Lemma read_digits_nil (r : jsstring) :
  delimited r = true -> read_digits r = (Nil, r).
Proof.
  destruct r as [|c r]; [reflexivity|]. intros H.
  cbn [read_digits]. now rewrite (not_digit_delimited _ _ H).
Qed.

Lemma read_digits_chars (d : uint) (r : jsstring) :
  delimited r = true -> read_digits (chars_of_uint d ++ r) = (d, r).
Proof.
  intros H. induction d; cbn [chars_of_uint List.app];
    [now apply read_digits_nil|..];
    cbn [read_digits]; rewrite IHd; reflexivity.
Qed.

Lemma to_uint_nonnil (n : N) : N.to_uint n <> Nil.
Proof.
  destruct n as [|p]; [discriminate|]. apply DecimalPos.Unsigned.to_uint_nonnil.
Qed.

Lemma valid_int_to_uint (n : N) : valid_int (N.to_uint n) = true.
Proof.
  pose proof (DecimalN.Unsigned.to_of (N.to_uint n)) as H.
  rewrite DecimalN.Unsigned.of_to in H.
  pose proof (to_uint_nonnil n) as Hn.
  destruct (N.to_uint n) as [|d| | | | | | | | | ] eqn:E; try reflexivity;
    try congruence.
  destruct d; try reflexivity; exfalso.
  all: unfold unorm in H; cbn [nzhead] in H; try discriminate H.
  match type of H with
  | _ = match nzhead ?u with _ => _ end =>
      pose proof (nzhead_nonzero u) as Hz; destruct (nzhead u) eqn:Eu;
      try discriminate; eapply Hz; eauto
  end.
Qed.

Lemma digits_head (n : N) :
  exists c t, digits n = c :: t /\ is_digit c = true.
Proof. apply is_digit_chars_head, to_uint_nonnil. Qed.

Lemma digit_not_minus (c : char) : is_digit c = true -> (c =? 45)%N = false.
Proof.
  unfold is_digit. intros H. apply andb_true_iff in H as [H _].
  apply N.leb_le in H. apply N.eqb_neq. lia.
Qed.

Lemma read_fraction_none (r : jsstring) :
  delimited r = true -> read_fraction r = Some (Nil, r).
Proof.
  destruct r as [|c r]; [reflexivity|]. cbn [delimited read_fraction].
  intros H. apply negb_true_iff in H.
  apply orb_false_iff in H as [H _]. apply orb_false_iff in H as [H _].
  apply orb_false_iff in H as [_ H]. now rewrite H.
Qed.

Lemma read_exponent_none (r : jsstring) :
  delimited r = true -> read_exponent r = Some (0%Z, r).
Proof.
  destruct r as [|c r]; [reflexivity|]. cbn [delimited read_exponent].
  intros H. apply negb_true_iff in H.
  apply orb_false_iff in H as [H H69]. apply orb_false_iff in H as [H H101].
  now rewrite H101, H69.
Qed.

Lemma lex_unsigned_integer (negative : bool) (n : N) (r : jsstring) :
  delimited r = true ->
  lex_unsigned negative (digits n ++ r)
  = Some (NInt (if negative then (- Z.of_N n)%Z else Z.of_N n), r).
Proof.
  intros Hr. unfold lex_unsigned, digits.
  rewrite read_digits_chars by assumption.
  rewrite valid_int_to_uint, read_fraction_none, read_exponent_none by assumption.
  cbn [nb_digits Z.of_nat]. rewrite DecimalN.Unsigned.of_to.
  change (N.of_uint Nil) with 0%N. cbn [Z.of_N].
  rewrite Z.pow_0_r, Z.mul_1_r, Z.add_0_r.
  unfold decimal. cbn [Z.sub Z.opp Z.add Z.leb Z.compare].
  now rewrite Z.pow_0_r, Z.mul_1_r.
Qed.

(** An integer written by [Number_toString] reads back as itself. *)
Lemma lex_number_integer (z : Z) (r : jsstring) :
  delimited r = true ->
  lex_number (Number_toString (NInt z) ++ r) = Some (NInt z, r).
Proof.
  intros Hr. cbn [Number_toString]. unfold lex_number.
  destruct (Z.ltb_spec z 0) as [Hneg|Hpos]; cbn [minus_sign List.app].
  - change (45 =? 45)%N with true. cbn iota.
    rewrite lex_unsigned_integer by assumption.
    rewrite N2Z.inj_abs_N. do 3 f_equal. lia.
  - destruct (digits_head (Z.abs_N z)) as (c & t & E & Hc).
    rewrite E. cbn [List.app]. rewrite (digit_not_minus c Hc).
    change (c :: t ++ r) with ((c :: t) ++ r). rewrite <- E.
    rewrite lex_unsigned_integer by assumption.
    rewrite N2Z.inj_abs_N. do 3 f_equal. lia.
Qed.


(** *** The lexer on serialized text *)

Lemma lex_skip (p r : jsstring) : lex (List.length p) (p ++ r) = lex 0 r.
Proof. induction p as [|c p IH]; [reflexivity|exact IH]. Qed.

Lemma lex_skip_suffix (p r : jsstring) :
  lex (List.length (p ++ r) - List.length r) (p ++ r) = lex 0 r.
Proof.
  rewrite length_app, Nat.add_sub. apply lex_skip.
Qed.

Lemma lex_whitespace (w r : jsstring) :
  whitespace w = true -> lex 0 (w ++ r) = lex 0 r.
Proof.
  induction w as [|c w IH]; [reflexivity|].
  cbn [whitespace forallb]. intros H. apply andb_true_iff in H as [Hc Hw].
  cbn [List.app lex]. rewrite Hc. now apply IH.
Qed.

Lemma whitespace_app (a b : jsstring) :
  whitespace a = true -> whitespace b = true -> whitespace (a ++ b) = true.
Proof.
  unfold whitespace. intros Ha Hb. rewrite forallb_app. now rewrite Ha, Hb.
Qed.

Lemma whitespace_spaces (n : nat) : whitespace (repeat 32%N n) = true.
Proof. induction n; [reflexivity|exact IHn]. Qed.

Lemma lexes_nil : lexes [] [].
Proof. intros r _. cbn [List.app]. now destruct (lex 0 r). Qed.

Lemma lexes_quoted (s : jsstring) : lexes (QuoteJSONString s) [TStr s].
Proof.
  intros r _. unfold QuoteJSONString. rewrite <- app_comm_cons, <- app_assoc.
  cbn [List.app lex]. change (is_ws 34%N) with false. cbv beta iota.
  unfold token_at.
  change (34 =? 91)%N with false. change (34 =? 93)%N with false.
  change (34 =? 123)%N with false. change (34 =? 125)%N with false.
  change (34 =? 58)%N with false. change (34 =? 44)%N with false.
  change (34 =? 34)%N with true. cbv beta iota.
  rewrite lex_string_quote_chars.
  change (quote_chars s ++ 34%N :: r) with (quote_chars s ++ [34%N] ++ r).
  rewrite app_assoc, lex_skip_suffix. reflexivity.
Qed.

Lemma token_at_number (c : char) (t : jsstring) :
  (c =? 45)%N || is_digit c = true ->
  token_at c t =
    match lex_number (c :: t) with
    | Some (n, rest) => Some (TNum n, List.length t - List.length rest)
    | None => None
    end.
Proof.
  intros H. unfold token_at.
  assert (Hc : (c = 45 \/ 48 <= c <= 57)%N).
  { apply orb_true_iff in H as [H|H].
    - apply N.eqb_eq in H. now left.
    - unfold is_digit in H. apply andb_true_iff in H as [H1 H2].
      apply N.leb_le in H1, H2. now right. }
  repeat match goal with
  | |- context [if (c =? ?k)%N then _ else _] =>
      destruct (N.eqb_spec c k); [exfalso; lia|]
  end.
  now rewrite H.
Qed.

Lemma number_first_char (z : Z) :
  exists c t, Number_toString (NInt z) = c :: t
    /\ (c =? 45)%N || is_digit c = true /\ is_ws c = false.
Proof.
  cbn [Number_toString].
  destruct (Z.ltb_spec z 0); cbn [minus_sign List.app].
  - exists 45%N. eexists. repeat split.
  - destruct (digits_head (Z.abs_N z)) as (c & t & E & Hc).
    exists c, t. repeat split; [exact E|now rewrite Hc, orb_true_r|].
    unfold is_digit in Hc. apply andb_true_iff in Hc as [H1 H2].
    apply N.leb_le in H1, H2. unfold is_ws.
    repeat (apply orb_false_iff; split); apply N.eqb_neq; lia.
Qed.

Lemma lexes_integer (z : Z) : lexes (Number_toString (NInt z)) [TNum (NInt z)].
Proof.
  intros r Hr.
  pose proof (lex_number_integer z r Hr) as Hn.
  destruct (number_first_char z) as (c & t & E & Hc & Hw).
  rewrite E in *. cbn [List.app lex]. rewrite Hw.
  rewrite (token_at_number c (t ++ r) Hc).
  change (c :: t ++ r) with ((c :: t) ++ r). rewrite Hn.
  rewrite lex_skip_suffix. reflexivity.
Qed.

Lemma lex_punctuation (c : char) (tok : token) (r : jsstring) :
  In (c, tok) [(91%N, TLBracket); (93%N, TRBracket); (123%N, TLBrace);
               (125%N, TRBrace); (58%N, TColon); (44%N, TComma)] ->
  lex 0 (c :: r) = option_map (cons tok) (lex 0 r).
Proof.
  cbn [In]. intros H.
  repeat (destruct H as [H|H]; [injection H as <- <-; reflexivity|]).
  destruct H.
Qed.

Lemma delimited_cons (c : char) (r : jsstring) :
  In c [10%N; 44%N; 93%N; 125%N; 58%N] -> delimited (c :: r) = true.
Proof.
  cbn [In]. intros H.
  repeat (destruct H as [H|H]; [subst c; reflexivity|]). destruct H.
Qed.

Lemma option_map_app {A} (a b : list A) (o : option (list A)) :
  option_map (List.app a) (option_map (List.app b) o)
  = option_map (List.app (a ++ b)) o.
Proof. destruct o; cbn; [now rewrite app_assoc|reflexivity]. Qed.

Lemma option_map_cons {A} (x : A) (b : list A) (o : option (list A)) :
  option_map (cons x) (option_map (List.app b) o)
  = option_map (List.app (x :: b)) o.
Proof. now destruct o. Qed.

(** Parts joined by a comma and optional white space. *)
Lemma lex_join (w : jsstring) (parts : list jsstring) (toks : list (list token)) :
  whitespace w = true -> Forall2 lexes parts toks ->
  lexes (join (44%N :: w) parts) (separated toks).
Proof.
  intros Hw H. induction H as [|p t parts toks Hp Hrest IH].
  - apply lexes_nil.
  - destruct Hrest as [|p' t' parts' toks' Hp' Hrest'].
    + exact Hp.
    + intros r Hr.
      change (join (44%N :: w) (p :: p' :: parts'))
        with (p ++ (44%N :: w) ++ join (44%N :: w) (p' :: parts')).
      change (separated (t :: t' :: toks'))
        with (t ++ TComma :: separated (t' :: toks')).
      rewrite <- !app_assoc. rewrite Hp by (apply delimited_cons; cbn; tauto).
      cbn [List.app].
      rewrite (lex_punctuation 44%N TComma) by (cbn; tauto).
      rewrite lex_whitespace by assumption.
      rewrite (IH r Hr).
      rewrite option_map_cons, option_map_app. reflexivity.
Qed.

(** Brackets or braces around the parts. *)
Lemma lex_wrap (o c : char) (otok ctok : token) (gap stepback : jsstring)
    (parts : list jsstring) (toks : list (list token)) :
  In (o, otok) [(91%N, TLBracket); (123%N, TLBrace)] ->
  In (c, ctok) [(93%N, TRBracket); (125%N, TRBrace)] ->
  whitespace gap = true -> whitespace stepback = true ->
  Forall2 lexes parts toks ->
  lexes (wrap o c gap stepback parts) (otok :: separated toks ++ [ctok]).
Proof.
  intros Ho Hc Hgap Hsb H r Hr.
  assert (Hopen : forall x, lex 0 (o :: x) = option_map (cons otok) (lex 0 x)).
  { intros x. apply lex_punctuation. cbn in *. tauto. }
  assert (Hclose : forall x, lex 0 (c :: x) = option_map (cons ctok) (lex 0 x)).
  { intros x. apply lex_punctuation. cbn in *. tauto. }
  assert (Hdc : forall x, delimited (c :: x) = true).
  { intros x. apply delimited_cons. cbn in *.
    destruct Hc as [Hc|[Hc|[]]]; injection Hc as <- _; tauto. }
  unfold wrap. destruct H as [|p t parts toks Hp Hrest].
  - cbn [List.app separated]. rewrite Hopen, Hclose. now destruct (lex 0 r).
  - pose proof (Forall2_cons _ _ Hp Hrest) as Hall.
    destruct gap as [|g gap].
    + cbn [List.app]. rewrite Hopen, <- app_assoc.
      pose proof (lex_join [] _ _ eq_refl Hall) as Hj.
      rewrite Hj by apply Hdc.
      cbn [List.app]. rewrite Hclose.
      destruct (lex 0 r); cbn; [|reflexivity].
      now rewrite <- app_assoc.
    + cbn [List.app]. rewrite Hopen.
      assert (Hind : whitespace (10%N :: stepback ++ g :: gap) = true).
      { apply (whitespace_app [10%N]); [reflexivity|now apply whitespace_app]. }
      match goal with
      | |- context [lex 0 ?text] =>
          replace text with
            ((10%N :: stepback ++ g :: gap)
               ++ join (44%N :: 10%N :: stepback ++ g :: gap) (p :: parts)
               ++ (10%N :: stepback) ++ c :: r)
      end.
      2:{ cbn [List.app]. f_equal. rewrite <- !app_assoc. cbn [List.app].
          now rewrite <- !app_assoc. }
      rewrite lex_whitespace by assumption.
      pose proof (lex_join _ _ _ Hind Hall) as Hj.
      rewrite Hj by (apply delimited_cons; cbn; tauto).
      rewrite lex_whitespace by (apply (whitespace_app [10%N]); [reflexivity|assumption]).
      rewrite Hclose.
      destruct (lex 0 r); cbn; [|reflexivity].
      now rewrite <- app_assoc.
Qed.

Lemma lexes_member (gap key str : jsstring) (toks : list token) :
  whitespace gap = true -> lexes str toks ->
  lexes (member gap key str) (TStr key :: TColon :: toks).
Proof.
  intros Hgap Hs r Hr. unfold member. rewrite <- app_assoc. cbn [List.app].
  rewrite lexes_quoted by (apply delimited_cons; cbn; tauto).
  rewrite (lex_punctuation 58%N TColon) by (cbn; tauto).
  rewrite <- app_assoc.
  rewrite lex_whitespace by (destruct gap; reflexivity).
  rewrite (Hs r Hr). now destruct (lex 0 r).
Qed.


(** *** The parser on the tokens of a library *)

Lemma run_app (st : pstate) (a b : list token) :
  run st (a ++ b) = match run st a with Some st' => run st' b | None => None end.
Proof.
  revert st. induction a as [|x a IH]; intros st; cbn [List.app run]; [reflexivity|].
  destruct (step st x); [apply IH|reflexivity].
Qed.

Section Library.
Import types Vocabulary.

Lemma run_image (i : SavedImage) (stack : list frame) (rest : list token) :
  expects_value stack = true ->
  run (Parsing stack) (image_tokens i ++ rest)
  = match push_value (JObj (object_of i)) stack with
    | Some st => run st rest
    | None => None
    end.
Proof.
  intros H. unfold image_tokens. cbn [separated List.app run step].
  rewrite H. reflexivity.
Qed.

Lemma separated_cons (t : list token) (ts : list (list token)) :
  separated (t :: ts) = t ++ flat_map (fun t' => TComma :: t') ts.
Proof.
  revert t. induction ts as [|t' ts IH]; intros t.
  - cbn. now rewrite List.app_nil_r.
  - change (separated (t :: t' :: ts)) with (t ++ TComma :: separated (t' :: ts)).
    now rewrite IH.
Qed.

Lemma run_more_images (l : list SavedImage) (acc : list json)
    (stack : list frame) (rest : list token) :
  run (Parsing (ArrElem acc :: stack))
      (flat_map (fun t => TComma :: t) (map image_tokens l) ++ TRBracket :: rest)
  = match push_value (JArr (List.rev acc ++ map JObj (objects_of l))) stack with
    | Some st => run st rest
    | None => None
    end.
Proof.
  revert acc. induction l as [|i l IH]; intros acc.
  - cbn [map flat_map List.app objects_of run step]. now rewrite List.app_nil_r.
  - cbn [map flat_map objects_of]. rewrite <- app_assoc.
    change ((TComma :: image_tokens i) ++ ?x) with (TComma :: image_tokens i ++ x).
    cbn [run step]. rewrite run_image by reflexivity.
    cbn [push_value]. rewrite IH. cbn [List.rev]. rewrite <- app_assoc. reflexivity.
Qed.

Lemma run_library (l : list SavedImage) (stack : list frame) (rest : list token) :
  expects_value stack = true ->
  run (Parsing stack) (library_tokens l ++ rest)
  = match push_value (JArr (map JObj (objects_of l))) stack with
    | Some st => run st rest
    | None => None
    end.
Proof.
  intros H. unfold library_tokens. destruct l as [|i l].
  - cbn [map separated List.app run step]. now rewrite H.
  - cbn [map]. rewrite separated_cons. cbn [List.app run step]. rewrite H.
    rewrite <- !app_assoc. rewrite run_image by reflexivity.
    cbn [push_value List.app]. apply (run_more_images l [JObj (object_of i)]).
Qed.

Lemma lexes_image (gap stepback : jsstring) (i : SavedImage) :
  whitespace gap = true -> whitespace stepback = true ->
  lexes (serialize gap stepback (JObj (object_of i))) (image_tokens i).
Proof.
  intros Hgap Hsb. unfold image_tokens, object_of. cbn [serialize map fst snd].
  apply (lex_wrap 123%N 125%N TLBrace TRBrace); try assumption;
    [cbn; tauto|cbn; tauto|].
  repeat (apply Forall2_cons;
          [apply lexes_member;
           [assumption|first [apply lexes_quoted | apply lexes_integer]]|]).
  apply Forall2_nil.
Qed.

Lemma lexes_library (gap stepback : jsstring) (l : list SavedImage) :
  whitespace gap = true -> whitespace stepback = true ->
  lexes (serialize gap stepback (App.array_of (objects_of l))) (library_tokens l).
Proof.
  intros Hgap Hsb. unfold library_tokens, App.array_of, objects_of.
  cbn [serialize].
  apply (lex_wrap 91%N 93%N TLBracket TRBracket); try assumption;
    [cbn; tauto|cbn; tauto|].
  rewrite !map_map. induction l as [|i l IH]; cbn [map]; constructor; [|exact IH].
  apply lexes_image; [assumption|now apply whitespace_app].
Qed.

(** Parsing a serialized library of typed images returns the library,
    whatever the indentation. *)
Lemma parse_serialized_library (gap : jsstring) (l : list SavedImage) :
  whitespace gap = true ->
  parse (serialize gap [] (App.array_of (objects_of l)))
  = Some (App.array_of (objects_of l)).
Proof.
  intros Hgap. unfold parse.
  pose proof (lexes_library gap [] l Hgap eq_refl [] eq_refl) as H.
  rewrite List.app_nil_r in H. rewrite H. cbn [lex option_map].
  rewrite run_library by reflexivity. reflexivity.
Qed.

End Library.

(** *** Serialized text is well-formed UTF-16 *)

Lemma well_formed_plain (s : jsstring) : plain s = true -> well_formed s = true.
Proof.
  induction s as [|c s IH]; [reflexivity|].
  cbn [plain forallb well_formed]. intros H.
  apply andb_true_iff in H as [Hc Hs]. apply negb_true_iff in Hc.
  apply orb_false_iff in Hc as [Hh Hl]. rewrite Hh, Hl. now apply IH.
Qed.

Lemma well_formed_app (a b : jsstring) :
  well_formed a = true -> well_formed b = true -> well_formed (a ++ b) = true.
Proof.
  remember (List.length a) as n eqn:Hn. revert a Hn.
  induction n as [n IH] using lt_wf_ind. intros a Hn Ha Hb.
  destruct a as [|c t]; [assumption|].
  cbn [List.app well_formed] in *.
  destruct (is_high_surrogate c).
  - destruct t as [|c2 t2]; [discriminate|]. cbn [List.app].
    apply andb_true_iff in Ha as [Hc2 Ht2]. rewrite Hc2. cbn [andb].
    apply (IH (List.length t2)); cbn in Hn; try assumption; [lia|reflexivity].
  - apply andb_true_iff in Ha as [Hc Ht]. rewrite Hc. cbn [andb].
    apply (IH (List.length t)); cbn in Hn; try assumption; [lia|reflexivity].
Qed.

Lemma plain_app (a b : jsstring) :
  plain a = true -> plain b = true -> plain (a ++ b) = true.
Proof. unfold plain. intros Ha Hb. now rewrite forallb_app, Ha, Hb. Qed.

Lemma plain_below (s : jsstring) :
  Forall (fun c => (c < 128)%N) s -> plain s = true.
Proof.
  induction 1 as [|c s Hc _ IH]; [reflexivity|].
  cbn [plain forallb]. fold (plain s). rewrite IH, andb_true_r.
  apply negb_true_iff, orb_false_iff.
  unfold is_high_surrogate, is_low_surrogate.
  split; apply andb_false_iff; left; apply N.leb_gt; lia.
Qed.

Lemma hex_digit_below (n : N) : (n < 16)%N -> (hex_digit n < 128)%N.
Proof. unfold hex_digit. destruct (N.ltb_spec n 10); lia. Qed.

Lemma plain_escape (c : char) : plain (UnicodeEscape c) = true.
Proof.
  apply plain_below. unfold UnicodeEscape.
  repeat constructor; try apply hex_digit_below, nibble_lt; lia.
Qed.

Lemma well_formed_quote_char (c : char) :
  is_high_surrogate c = false -> well_formed (quote_char c) = true.
Proof.
  intros Hh. unfold quote_char.
  repeat match goal with
  | |- context [(c =? ?k)%N] => destruct (N.eqb_spec c k); [reflexivity|]
  end.
  destruct (c <? 32)%N; [apply well_formed_plain, plain_escape|].
  rewrite Hh. cbn [orb].
  destruct (is_low_surrogate c) eqn:Hl; [apply well_formed_plain, plain_escape|].
  cbn [well_formed]. now rewrite Hh, Hl.
Qed.

Lemma well_formed_lone_high (c : char) :
  is_high_surrogate c = true -> well_formed (quote_char c) = true.
Proof.
  intros Hh. unfold quote_char.
  assert (55296 <= c)%N.
  { unfold is_high_surrogate in Hh. apply andb_true_iff in Hh as [H _].
    now apply N.leb_le. }
  repeat match goal with
  | |- context [(c =? ?k)%N] => destruct (N.eqb_spec c k); [lia|]
  end.
  destruct (N.ltb_spec c 32); [lia|]. rewrite Hh. cbn [orb].
  apply well_formed_plain, plain_escape.
Qed.

Lemma well_formed_quote_chars (s : jsstring) : well_formed (quote_chars s) = true.
Proof.
  remember (List.length s) as n eqn:Hn. revert s Hn.
  induction n as [n IH] using lt_wf_ind. intros s Hn.
  destruct s as [|c t]; [reflexivity|]. cbn [quote_chars].
  destruct (is_high_surrogate c) eqn:Hc.
  - destruct t as [|c2 t2]; [now apply well_formed_lone_high|].
    destruct (is_low_surrogate c2) eqn:Hc2.
    + cbn [well_formed]. rewrite Hc, Hc2. cbn [andb].
      apply (IH (List.length t2)); cbn in Hn; [lia|reflexivity].
    + apply well_formed_app; [now apply well_formed_lone_high|].
      apply (IH (List.length (c2 :: t2))); cbn in *; [lia|reflexivity].
  - apply well_formed_app; [now apply well_formed_quote_char|].
    apply (IH (List.length t)); cbn in Hn; [lia|reflexivity].
Qed.

Lemma well_formed_quoted (s : jsstring) : well_formed (QuoteJSONString s) = true.
Proof.
  unfold QuoteJSONString. apply (well_formed_app [34%N]); [reflexivity|].
  apply well_formed_app; [apply well_formed_quote_chars|reflexivity].
Qed.

Lemma plain_chars_of_uint (d : uint) : plain (chars_of_uint d) = true.
Proof. induction d; cbn [chars_of_uint]; trivial. Qed.

Lemma well_formed_integer (z : Z) : well_formed (Number_toString (NInt z)) = true.
Proof.
  apply well_formed_plain. cbn [Number_toString]. apply plain_app.
  - now destruct (z <? 0)%Z.
  - apply plain_chars_of_uint.
Qed.

Lemma plain_whitespace (w : jsstring) : whitespace w = true -> plain w = true.
Proof.
  induction w as [|c w IH]; [reflexivity|].
  cbn [whitespace forallb plain]. intros H. apply andb_true_iff in H as [Hc Hw].
  fold (plain w). rewrite (IH Hw), andb_true_r.
  unfold is_ws in Hc. apply negb_true_iff, orb_false_iff.
  unfold is_high_surrogate, is_low_surrogate.
  repeat (apply orb_true_iff in Hc as [Hc|Hc]);
    apply N.eqb_eq in Hc; subst c; split; reflexivity.
Qed.

Lemma well_formed_join (sep : jsstring) (parts : list jsstring) :
  well_formed sep = true -> Forall (fun p => well_formed p = true) parts ->
  well_formed (join sep parts) = true.
Proof.
  intros Hsep H. induction H as [|p parts Hp Hrest IH]; [reflexivity|].
  destruct parts as [|p' parts']; [exact Hp|].
  change (join sep (p :: p' :: parts')) with (p ++ sep ++ join sep (p' :: parts')).
  repeat apply well_formed_app; assumption.
Qed.

Lemma well_formed_wrap (o c : char) (gap stepback : jsstring) (parts : list jsstring) :
  In (o, c) [(91%N, 93%N); (123%N, 125%N)] ->
  whitespace gap = true -> whitespace stepback = true ->
  Forall (fun p => well_formed p = true) parts ->
  well_formed (wrap o c gap stepback parts) = true.
Proof.
  intros Hoc Hgap Hsb H.
  assert (Ho : well_formed [o] = true /\ well_formed [c] = true).
  { cbn [In] in Hoc. destruct Hoc as [E|[E|[]]]; injection E as <- <-; now split. }
  destruct Ho as [Ho Hc].
  assert (Hws : forall w, whitespace w = true -> well_formed w = true)
    by (intros w Hw; now apply well_formed_plain, plain_whitespace).
  unfold wrap. destruct parts as [|p parts].
  - now apply (well_formed_app [o] [c]).
  - destruct gap as [|g gap].
    + apply (well_formed_app [o]); [assumption|].
      apply well_formed_app; [|assumption].
      now apply well_formed_join.
    + assert (Hind : whitespace (10%N :: stepback ++ g :: gap) = true).
      { apply (whitespace_app [10%N]); [reflexivity|now apply whitespace_app]. }
      apply (well_formed_app [o]); [assumption|].
      apply (well_formed_app (10%N :: stepback ++ g :: gap)); [now apply Hws|].
      apply well_formed_app.
      * apply well_formed_join; [|assumption].
        apply (well_formed_app [44%N]); [reflexivity|now apply Hws].
      * apply (well_formed_app (10%N :: stepback)); [|assumption].
        apply Hws. now apply (whitespace_app [10%N]).
Qed.

Lemma well_formed_member (gap key str : jsstring) :
  whitespace gap = true -> well_formed str = true ->
  well_formed (member gap key str) = true.
Proof.
  intros Hgap Hstr. unfold member.
  apply well_formed_app; [apply well_formed_quoted|].
  apply (well_formed_app [58%N]); [reflexivity|].
  apply well_formed_app; [now destruct gap|assumption].
Qed.

Lemma well_formed_library (gap stepback : jsstring) (l : list types.SavedImage) :
  whitespace gap = true -> whitespace stepback = true ->
  well_formed (serialize gap stepback (App.array_of (Vocabulary.objects_of l))) = true.
Proof.
  intros Hgap Hsb. unfold App.array_of, Vocabulary.objects_of. cbn [serialize].
  apply well_formed_wrap; try assumption; [cbn; tauto|].
  rewrite !map_map. apply Forall_forall. intros p Hp.
  apply in_map_iff in Hp as (i & <- & _).
  unfold types.object_of. cbn [serialize map fst snd].
  apply well_formed_wrap; try assumption;
    [cbn; tauto|now apply whitespace_app|].
  repeat (apply Forall_cons;
          [apply well_formed_member;
           [assumption|first [apply well_formed_quoted | apply well_formed_integer]]|]).
  apply Forall_nil.
Qed.

(** *** The grammar on examples *)

Example parse_accepts :
  parse (quoted " [1, -0, 2.50, 1e3, 12E-1, {'a': {'b': [[], [null]]}, 'a': null}, true, false] ")
  = Some (JArr [JNum (NInt 1); JNum (NInt 0); JNum (NFrac 25 1); JNum (NInt 1000);
                JNum (NFrac 12 1); JObj [(lit "a", JNull)];
                JBool true; JBool false])
  /\ parse (quoted "{'k': [{'b': 1}, 'x\u0041y'], 'l': {}}")
     = Some (JObj [(lit "k", JArr [JObj [(lit "b", JNum (NInt 1))]; JStr (lit "xAy")]);
                   (lit "l", JObj [])]).
Proof. split; vm_compute; reflexivity. Qed.

Example parse_rejects :
  map parse
    [ lit "not-json"; quoted "[1,]"; quoted "{'a':1,}"; quoted "{'a' 1}";
      quoted "01"; quoted "1."; quoted ".5"; quoted "-"; quoted "1e";
      quoted "'abc"; quoted "nul"; quoted "[] []"; quoted "1 2"; [];
      quoted "[1 2]"; quoted "{1:2}"; quoted "[,1]"; quoted "{'a'}";
      quoted "{'a':}"; quoted "[1}"; quoted "{'a':1]"; quoted "[[1]" ]
  = repeat None 22.
Proof. vm_compute. reflexivity. Qed.

Example stringify_scenario :
  stringify (App.array_of [types.object_of Vocabulary.cat])
  = quoted "[{'id':'x1','imageDataUrl':'data:image/png;base64,AAAA','mimeType':'image/png','prompt':'cat','timestamp':1000}]".
Proof. vm_compute. reflexivity. Qed.

End JSONFacts.

(* ================================================================== *)
(** ** The library *)
(* ================================================================== *)

Module LibraryFacts.
Import JS JSON App Vocabulary JSFacts JSONFacts.

(** *** Reading the fields of a typed image *)

Lemma get_id (i : types.SavedImage) :
  get (lit "id") (types.object_of i) = Some (JStr (types.id i)).
Proof. reflexivity. Qed.

Lemma get_imageDataUrl (i : types.SavedImage) :
  get (lit "imageDataUrl") (types.object_of i) = Some (JStr (types.imageDataUrl i)).
Proof. reflexivity. Qed.

Lemma get_prompt (i : types.SavedImage) :
  get (lit "prompt") (types.object_of i) = Some (JStr (types.prompt i)).
Proof. reflexivity. Qed.

Lemma get_timestamp (i : types.SavedImage) :
  get (lit "timestamp") (types.object_of i) = Some (JNum (NInt (types.timestamp i))).
Proof. reflexivity. Qed.

Lemma truthy_string (s : jsstring) : truthy (Some (JStr s)) = true <-> s <> [].
Proof. destruct s; cbn; intuition congruence. Qed.

Lemma truthy_integer (z : Z) : truthy (Some (JNum (NInt z))) = true <-> z <> 0%Z.
Proof. cbn. rewrite negb_true_iff. apply Z.eqb_neq. Qed.

(** The import filter on a typed image tests exactly [importable]. *)
Lemma valid_object_of (i : types.SavedImage) :
  valid (types.object_of i) = true <-> importable i.
Proof.
  unfold valid, importable.
  rewrite get_id, get_imageDataUrl, get_prompt, get_timestamp.
  cbn [is_string is_number]. rewrite !andb_true_r, !andb_true_iff.
  rewrite !truthy_string, truthy_integer. tauto.
Qed.

(** An item that passes the filter has a non-empty string for id. *)
Lemma valid_id (img : object) :
  valid img = true -> exists s, get (lit "id") img = Some (JStr s) /\ s <> [].
Proof.
  unfold valid. intros H.
  do 6 (apply andb_true_iff in H as [H _]).
  apply andb_true_iff in H as [Ht Hs].
  destruct (get (lit "id") img) as [[| | |s| |]|]; try discriminate.
  exists s. split; [reflexivity|]. now apply truthy_string.
Qed.

(** *** The filter over an array of objects *)

Lemma validImportedImages_objects (items : list object) :
  validImportedImages (map JObj items) = Some (filter valid items).
Proof.
  induction items as [|item items IH]; [reflexivity|].
  cbn [map validImportedImages filter]. rewrite IH. reflexivity.
Qed.

Lemma filter_valid_importable (l : list types.SavedImage) :
  Forall importable l -> filter valid (objects_of l) = objects_of l.
Proof.
  induction 1 as [|i l Hi _ IH]; [reflexivity|].
  cbn [objects_of map filter]. apply valid_object_of in Hi. rewrite Hi.
  f_equal. exact IH.
Qed.

(** *** Membership in the set of existing ids *)

Lemma SameValueZero_string (v : value) (s : jsstring) :
  SameValueZero v (Some (JStr s)) = true <-> v = Some (JStr s).
Proof.
  destruct v as [[| | |t| |]|]; cbn; try (split; congruence).
  rewrite eqb_string_eq. split; congruence.
Qed.

Lemma Set_has_string (values : list value) (s : jsstring) :
  Set_has values (Some (JStr s)) = true <-> In (Some (JStr s)) values.
Proof.
  unfold Set_has. rewrite existsb_exists. split.
  - intros (v & Hin & Hv). apply SameValueZero_string in Hv. now subst v.
  - intros Hin. exists (Some (JStr s)). split; [assumption|].
    now apply SameValueZero_string.
Qed.

Lemma Set_has_app (a b : list value) (x : value) :
  Set_has (a ++ b) x = Set_has a x || Set_has b x.
Proof. apply existsb_app. Qed.

Lemma ids_app (a b : list object) : ids (a ++ b) = ids a ++ ids b.
Proof. apply map_app. Qed.

(** *** The import handler, step by step *)

(** The images an import adds: the items that pass the filter and whose
    id is not in the library, in the order of the file. *)
Lemma import_objects (text : jsstring) (items : list object) (write : setItem)
    (st : state) :
  parse text = Some (array_of items) ->
  handleImportLibrary text write st =
    match filter (fun img => negb (Set_has (ids (library st)) (get (lit "id") img)))
                 (filter valid items) with
    | [] => (st, noNewImages)
    | newImages =>
        (updateLibrary write (newImages ++ library st) st,
         match write with
         | stores => importSuccess (List.length newImages)
         | throws => importError
         end)
    end.
Proof.
  intros H. unfold handleImportLibrary, array_of in *. rewrite H.
  rewrite validImportedImages_objects. cbv zeta. fold (ids (library st)).
  now destruct (filter _ (filter valid items)).
Qed.

(** The filter on typed images, and the test for a known id, in the
    terms of [kept] and [known]. *)
Lemma valid_kept (i : types.SavedImage) : valid (types.object_of i) = kept i.
Proof.
  unfold valid, kept. rewrite get_id, get_imageDataUrl, get_prompt, get_timestamp.
  cbn [truthy is_string is_number].
  destruct (types.id i), (types.imageDataUrl i), (types.prompt i); cbn;
    try reflexivity; now rewrite andb_true_r.
Qed.

Lemma Set_has_known (l : list object) (s : jsstring) :
  Set_has (ids l) (Some (JStr s)) = known l s.
Proof.
  unfold Set_has, known, ids. induction l as [|img l IH]; [reflexivity|].
  cbn [map existsb]. rewrite IH.
  now destruct (get (lit "id") img) as [[| | | | |]|].
Qed.

Lemma filter_objects_of (f : object -> bool) (l : list types.SavedImage) :
  filter f (objects_of l) = objects_of (filter (fun i => f (types.object_of i)) l).
Proof.
  induction l as [|i l IH]; [reflexivity|]. cbn [objects_of map filter].
  fold (objects_of l). rewrite IH. now destruct (f (types.object_of i)).
Qed.

Lemma filter_filter {A} (f g : A -> bool) (l : list A) :
  filter g (filter f l) = filter (fun x => f x && g x) l.
Proof.
  induction l as [|x l IH]; [reflexivity|]. cbn [filter].
  destruct (f x); cbn [filter andb]; [destruct (g x)|]; now rewrite IH.
Qed.

Lemma filter_none {A} (f : A -> bool) (l : list A) :
  (forall x, In x l -> f x = false) -> filter f l = [].
Proof.
  induction l as [|x l IH]; intros H; [reflexivity|]. cbn [filter].
  rewrite (H x) by now left. apply IH. intros y Hy. apply H. now right.
Qed.

Lemma filter_all {A} (f : A -> bool) (l : list A) :
  (forall x, In x l -> f x = true) -> filter f l = l.
Proof.
  induction l as [|x l IH]; intros H; [reflexivity|]. cbn [filter].
  rewrite (H x) by now left. f_equal. apply IH. intros y Hy. apply H. now right.
Qed.


(** *** Export followed by import *)

Lemma export_nonempty (st : state) :
  library st <> [] ->
  handleExportLibrary st = Some (stringify_indented (array_of (library st)) 2).
Proof. unfold handleExportLibrary. destruct (library st); congruence. Qed.

Lemma parse_export (l : list types.SavedImage) (n : nat) :
  parse (stringify_indented (array_of (objects_of l)) n)
  = Some (array_of (objects_of l)).
Proof. apply parse_serialized_library, whitespace_spaces. Qed.

Lemma objects_of_nonempty (l : list types.SavedImage) :
  l <> [] -> objects_of l <> [].
Proof. destruct l; cbn; congruence. Qed.

(** C1, as amended.  For every non-empty library of typed images whose ids
    are pairwise distinct and whose entries each have a non-empty id, a
    non-empty imageDataUrl, a non-empty prompt and a non-zero time stamp,
    the export handler produces a file, and importing that file into an
    empty library reconstructs the library: the same entries in the same
    order.  That holds whatever the browser does with the write that
    follows. *)
Theorem export_import_round_trip
    (l : list types.SavedImage) (write : setItem) (exporting importing : state) :
  l <> [] -> NoDup (map types.id l) -> Forall importable l ->
  library exporting = objects_of l -> library importing = [] ->
  exists file,
    handleExportLibrary exporting = Some file /\
    library (fst (handleImportLibrary file write importing)) = objects_of l.
Proof.
  intros Hne _ Hvalid Hexp Himp.
  exists (stringify_indented (array_of (objects_of l)) 2). split.
  - rewrite export_nonempty; rewrite Hexp; [reflexivity|].
    now apply objects_of_nonempty.
  - rewrite (import_objects _ (objects_of l)) by apply parse_export.
    rewrite filter_valid_importable by assumption.
    rewrite Himp. cbn [ids map Set_has existsb negb].
    rewrite filter_all by reflexivity.
    destruct (objects_of l) eqn:E.
    + now apply objects_of_nonempty in Hne.
    + rewrite <- E. cbn [fst updateLibrary library].
      apply List.app_nil_r.
Qed.

(** The amended C1 on a library of three images. *)
Lemma export_import_round_trip_witness :
  exists file,
    handleExportLibrary (holding (objects_of [bird; dog; cat])) = Some file /\
    library (fst (handleImportLibrary file stores (holding [])))
    = objects_of [bird; dog; cat].
Proof.
  apply (export_import_round_trip [bird; dog; cat] stores
           (holding (objects_of [bird; dog; cat])) (holding [])).
  - discriminate.
  - cbn. repeat constructor; cbn; intuition discriminate.
  - repeat constructor; discriminate.
  - reflexivity.
  - reflexivity.
Defined.

(** C1 as stated fails.  A library of one image, hence with distinct ids,
    does not come back from its own export when the image has an empty
    prompt, a zero time stamp, an empty id or an empty imageDataUrl: the
    import filter drops the entry and the library stays empty.  An empty
    library is not exported at all. *)
Lemma export_import_loses_entries :
  NoDup (map types.id [cat_without_prompt])
  /\ option_map (fun file => library (fst (handleImportLibrary file stores (holding []))))
       (handleExportLibrary (holding (objects_of [cat_without_prompt])))
     = Some []
  /\ objects_of [cat_without_prompt] <> []
  /\ option_map (fun file => library (fst (handleImportLibrary file stores (holding []))))
       (handleExportLibrary (holding (objects_of [cat_at_epoch])))
     = Some []
  /\ option_map (fun file => library (fst (handleImportLibrary file stores (holding []))))
       (handleExportLibrary (holding (objects_of [cat_without_id])))
     = Some []
  /\ option_map (fun file => library (fst (handleImportLibrary file stores (holding []))))
       (handleExportLibrary (holding (objects_of [cat_without_image])))
     = Some []
  /\ handleExportLibrary (holding (objects_of [])) = None.
Proof.
  split; [repeat constructor; intros []|].
  split; [vm_compute; reflexivity|].
  split; [discriminate|].
  repeat (split; [vm_compute; reflexivity|]).
  reflexivity.
Qed.

(** *** Loading *)

Lemma load_absent : loadLibraryEffect None = JArr [].
Proof. reflexivity. Qed.

(** Text that does not parse as JSON is caught: the effect leaves the
    empty library. *)
Theorem load_unparseable (saved : jsstring) :
  parse saved = None -> loadLibraryEffect (Some saved) = JArr [].
Proof.
  intros H. unfold loadLibraryEffect. destruct saved; [reflexivity|].
  now rewrite H.
Qed.

(** [load_unparseable] on the text [not-json] of the specification. *)
Lemma load_not_json :
  parse (lit "not-json") = None
  /\ loadLibraryEffect (Some (lit "not-json")) = JArr [].
Proof.
  split; [vm_compute; reflexivity|].
  apply (load_unparseable (lit "not-json")). vm_compute. reflexivity.
Defined.

Lemma load_parseable (saved : jsstring) (v : json) :
  parse saved = Some v -> loadLibraryEffect (Some saved) = v.
Proof.
  intros H. unfold loadLibraryEffect. destruct saved; [discriminate|].
  now rewrite H.
Qed.

(** On a library of objects the render evaluates what [isSaved] says. *)
Lemma render_isSaved_objects (l : list object) (out : option jsstring)
    (p : jsstring) (stored : option jsstring) :
  render_isSaved (array_of l) out
  = Some (isSaved {| library := l; outputImage := out; prompt := p;
                     localStorage := stored |}).
Proof.
  unfold isSaved. cbn [render_isSaved array_of library outputImage].
  induction l as [|img l IH]; [reflexivity|].
  cbn [map find_saved existsb]. rewrite IH.
  now destruct (strict_equal_string_or_null _ out).
Qed.

(** C2, the code at the failing input.  With the text of an empty JSON
    object in storage the mount effect puts that object in the library
    state: no array, so no empty library, and the render that follows
    throws.  The same happens for a number and for a string. *)
Theorem load_keeps_non_array :
  loadLibraryEffect (Some (quoted "{}")) = JObj []
  /\ (forall l, loadLibraryEffect (Some (quoted "{}")) <> JArr l)
  /\ render_isSaved (loadLibraryEffect (Some (quoted "{}"))) None = None
  /\ loadLibraryEffect (Some (quoted "42")) = JNum (NInt 42)
  /\ loadLibraryEffect (Some (quoted "'x'")) = JStr (lit "x").
Proof.
  split; [vm_compute; reflexivity|].
  split; [intros l; vm_compute; discriminate|].
  repeat split; vm_compute; reflexivity.
Qed.

(** *** Importing *)

(** C4.  When the payload is not valid JSON, or is JSON whose top level
    is not an array, the import ends in the error message and leaves the
    state (library and storage) as it was; the error message is neither
    the message for zero new images nor a success count. *)
Theorem import_malformed (text : jsstring) (write : setItem) (st : state) :
  (parse text = None \/ exists v, parse text = Some v /\ forall l, v <> JArr l) ->
  handleImportLibrary text write st = (st, importError)
  /\ importError <> noNewImages
  /\ forall n, importError <> importSuccess n.
Proof.
  intros H. split; [|split; [discriminate|intros n; discriminate]].
  unfold handleImportLibrary. destruct H as [H|(v & H & Hv)]; rewrite H.
  - reflexivity.
  - destruct v; try reflexivity. now destruct (Hv elements).
Qed.

(** C4 on the text [not-json] and a library of one image. *)
Lemma import_malformed_witness :
  (parse (lit "not-json") = None
   \/ exists v, parse (lit "not-json") = Some v /\ forall l, v <> JArr l)
  /\ handleImportLibrary (lit "not-json") stores (holding (objects_of [cat]))
     = (holding (objects_of [cat]), importError).
Proof.
  split.
  - left. vm_compute. reflexivity.
  - apply (import_malformed (lit "not-json") stores (holding (objects_of [cat]))).
    left. vm_compute. reflexivity.
Defined.

(** An object top level is refused like any other non-array. *)
Lemma import_object_refused (write : setItem) (st : state) :
  handleImportLibrary (quoted "{'id':'a'}") write st = (st, importError).
Proof. reflexivity. Qed.


(** The next lemma is the core of C6 and C7: once the images of a file
    have been added, or were there before, the same file adds nothing. *)
Lemma nothing_new (items : list object) (l : list object) :
  (forall img, In img items -> valid img = true ->
     In (get (lit "id") img) (ids l)) ->
  filter (fun img => negb (Set_has (ids l) (get (lit "id") img)))
         (filter valid items) = [].
Proof.
  intros H. apply filter_none. intros img Hin.
  apply filter_In in Hin as [Hin Hvalid].
  destruct (valid_id img Hvalid) as (s & Hs & _).
  apply negb_false_iff. rewrite Hs. apply Set_has_string.
  rewrite <- Hs. now apply H.
Qed.

Lemma import_again (text : jsstring) (items : list object) (w1 w2 : setItem)
    (st : state) :
  parse text = Some (array_of items) ->
  handleImportLibrary text w2 (fst (handleImportLibrary text w1 st))
  = (fst (handleImportLibrary text w1 st), noNewImages).
Proof.
  intros Hparse.
  rewrite (import_objects text items w2 (fst _)) by assumption.
  rewrite nothing_new; [reflexivity|].
  intros img Hin Hvalid.
  rewrite (import_objects text items w1 st) by assumption.
  destruct (valid_id img Hvalid) as (s & Hs & _).
  destruct (Set_has (ids (library st)) (get (lit "id") img)) eqn:Hknown.
  - assert (In (get (lit "id") img) (ids (library st))) as Hold
      by (rewrite Hs in *; now apply Set_has_string).
    destruct (filter _ (filter valid items)); cbn [fst updateLibrary library];
      [assumption|].
    rewrite ids_app. apply in_or_app. now right.
  - assert (In img (filter (fun img => negb (Set_has (ids (library st))
                                                (get (lit "id") img)))
                           (filter valid items))) as Hnew.
    { apply filter_In. split; [now apply filter_In|]. now rewrite Hknown. }
    destruct (filter _ (filter valid items)) as [|x new] eqn:E; [destruct Hnew|].
    cbn [fst updateLibrary library]. rewrite ids_app. apply in_or_app. left.
    unfold ids. now apply in_map.
Qed.

(** C6, as amended.  Let the file be one the export handler produced
    from a library of typed images.  The first import adds, in front of
    the library and in the order of the file, exactly the entries of the
    file that have a non-empty id, a non-empty imageDataUrl, a non-empty
    prompt and a non-zero time stamp and whose id is not the id of an
    entry of the library; importing the same file again right after adds
    nothing and leaves the state as it is.  Both hold whatever the
    browser does with the writes. *)
Theorem import_twice
    (f : list types.SavedImage) (w1 w2 : setItem) (exporting st : state)
    (file : jsstring) :
  library exporting = objects_of f ->
  handleExportLibrary exporting = Some file ->
  library (fst (handleImportLibrary file w1 st))
  = objects_of
      (filter (fun i => kept i && negb (known (library st) (types.id i))) f)
    ++ library st
  /\ handleImportLibrary file w2 (fst (handleImportLibrary file w1 st))
     = (fst (handleImportLibrary file w1 st), noNewImages).
Proof.
  intros Hlib Hexport.
  assert (Hparse : parse file = Some (array_of (objects_of f))).
  { unfold handleExportLibrary in Hexport. rewrite Hlib in Hexport.
    destruct (objects_of f) eqn:E; [discriminate|].
    injection Hexport as <-. rewrite <- E. apply parse_export. }
  split; [|now apply (import_again file (objects_of f))].
  rewrite (import_objects file (objects_of f) w1 st Hparse).
  rewrite filter_filter, filter_objects_of.
  assert (E : filter (fun i => valid (types.object_of i)
                               && negb (Set_has (ids (library st))
                                          (get (lit "id") (types.object_of i)))) f
              = filter (fun i => kept i && negb (known (library st) (types.id i))) f).
  { apply filter_ext. intros i. now rewrite valid_kept, get_id, Set_has_known. }
  rewrite E. now destruct (objects_of (filter _ f)).
Qed.

(** The amended C6 on the export of a library of three images, imported
    into a library that holds one of them: the two others are added. *)
Lemma import_twice_witness :
  handleExportLibrary (holding (objects_of [bird; dog; cat]))
  = Some (stringify_indented (array_of (objects_of [bird; dog; cat])) 2)
  /\ library (fst (handleImportLibrary
                     (stringify_indented (array_of (objects_of [bird; dog; cat])) 2)
                     stores (holding (objects_of [dog]))))
     = objects_of [bird; cat] ++ objects_of [dog]
  /\ handleImportLibrary
       (stringify_indented (array_of (objects_of [bird; dog; cat])) 2) stores
       (fst (handleImportLibrary
               (stringify_indented (array_of (objects_of [bird; dog; cat])) 2)
               stores (holding (objects_of [dog]))))
     = (fst (handleImportLibrary
               (stringify_indented (array_of (objects_of [bird; dog; cat])) 2)
               stores (holding (objects_of [dog]))),
        noNewImages).
Proof.
  split; [reflexivity|].
  apply (import_twice [bird; dog; cat] stores stores
           (holding (objects_of [bird; dog; cat])) (holding (objects_of [dog]))
           (stringify_indented (array_of (objects_of [bird; dog; cat])) 2));
    reflexivity.
Defined.

(** C6 as stated fails.  An entry with the time stamp 0, or with an empty
    imageDataUrl, is valid in the terms of the specification (id and
    prompt non-empty strings, imageDataUrl a string, timestamp a
    number), its id is not in the empty library, and the file is one the
    application exported; yet the first import adds nothing. *)
Lemma import_skips_valid_entries :
  structurally_valid (types.object_of cat_at_epoch) = true
  /\ option_map (fun file => handleImportLibrary file stores (holding []))
       (handleExportLibrary (holding (objects_of [cat_at_epoch])))
     = Some (holding [], noNewImages)
  /\ structurally_valid (types.object_of cat_without_image) = true
  /\ option_map (fun file => handleImportLibrary file stores (holding []))
       (handleExportLibrary (holding (objects_of [cat_without_image])))
     = Some (holding [], noNewImages).
Proof. repeat split; vm_compute; reflexivity. Qed.

(** C7.  When the payload is an array of one entry whose id is among the
    ids of the library, the import leaves the state as it is and reports
    that there is nothing new, which is not the error message. *)
Theorem import_known_id (text : jsstring) (e : object) (write : setItem)
    (st : state) :
  parse text = Some (JArr [JObj e]) ->
  In (get (lit "id") e) (ids (library st)) ->
  handleImportLibrary text write st = (st, noNewImages)
  /\ noNewImages <> importError.
Proof.
  intros Hparse Hknown. split; [|discriminate].
  rewrite (import_objects text [e] write st Hparse).
  rewrite nothing_new; [reflexivity|].
  intros img [<-|[]] _. assumption.
Qed.

(** C7 on a library that holds the scenario's image and a payload whose
    only entry has the same id. *)
Lemma import_known_id_witness :
  parse payload_cat
  = Some (JArr [JObj [(lit "id", JStr (lit "x1"));
                      (lit "imageDataUrl", JStr (lit "data:image/png;base64,BBBB"));
                      (lit "prompt", JStr (lit "dog"));
                      (lit "timestamp", JNum (NInt 5))]])
  /\ handleImportLibrary payload_cat stores (holding (objects_of [cat]))
     = (holding (objects_of [cat]), noNewImages).
Proof.
  split; [vm_compute; reflexivity|].
  apply (import_known_id payload_cat
           [(lit "id", JStr (lit "x1"));
            (lit "imageDataUrl", JStr (lit "data:image/png;base64,BBBB"));
            (lit "prompt", JStr (lit "dog"));
            (lit "timestamp", JNum (NInt 5))]
           stores (holding (objects_of [cat]))).
  - vm_compute. reflexivity.
  - left. reflexivity.
Defined.

(** C8, the code at the failing input.  An array entry that is [null]
    fails the validation, yet it is not dropped: reading its id throws,
    the import ends in the error message, and nothing is added, not even
    a valid entry of the same file. *)
Theorem import_null_entry (write : setItem) :
  handleImportLibrary payload_null_entry write (holding []) = (holding [], importError)
  /\ handleImportLibrary payload_null_then_valid write (holding [])
     = (holding [], importError).
Proof. split; vm_compute; reflexivity. Qed.

(** The instance C8 names does hold: the entry without a time stamp is
    dropped and nothing is added to the empty library. *)
Lemma import_missing_timestamp (write : setItem) :
  handleImportLibrary payload_missing_timestamp write (holding [])
  = (holding [], noNewImages).
Proof. vm_compute. reflexivity. Qed.

Lemma app_longer {A} (a b : list A) : a <> [] -> a ++ b <> b.
Proof.
  intros Ha H. apply (f_equal (@List.length A)) in H. rewrite length_app in H.
  destruct a; [congruence|]. cbn in H. lia.
Qed.

(** So does the general statement on arrays of objects: an entry that
    fails the validation is never added.  An error is reported in one
    case only: the write to storage threw, after new entries had been
    put in the library. *)
Theorem import_drops_invalid
    (text : jsstring) (items : list object) (write : setItem) (st : state) :
  parse text = Some (array_of items) ->
  (forall img, In img (library (fst (handleImportLibrary text write st))) ->
     valid img = false -> In img (library st))
  /\ (snd (handleImportLibrary text write st) = importError <->
      write = throws /\ library (fst (handleImportLibrary text write st)) <> library st).
Proof.
  intros Hparse. rewrite (import_objects text items write st Hparse).
  destruct (filter _ (filter valid items)) as [|x new] eqn:E.
  - cbn [fst snd]. split; [tauto|]. split; [discriminate|]. intros [_ H]. congruence.
  - cbn [fst snd updateLibrary library]. split.
    + intros img Hin Hinvalid. apply in_app_or in Hin as [Hin|Hin]; [|assumption].
      rewrite <- E in Hin. apply filter_In in Hin as [Hin _].
      apply filter_In in Hin as [_ Hvalid]. congruence.
    + destruct write; split; try discriminate.
      * intros [H _]. discriminate H.
      * intros _. split; [reflexivity|]. now apply app_longer.
      * reflexivity.
Qed.

(** [import_drops_invalid] on a payload of three valid entries, one of
    them known, imported into a library of two images by a browser that
    refuses the write: the error is reported and the library has grown. *)
Lemma import_drops_invalid_witness :
  snd (handleImportLibrary payload_three throws (holding (objects_of [dog; cat])))
  = importError
  /\ library (fst (handleImportLibrary payload_three throws
                     (holding (objects_of [dog; cat]))))
     <> library (holding (objects_of [dog; cat])).
Proof.
  split; [vm_compute; reflexivity|].
  apply (import_drops_invalid payload_three
           [[(lit "id", JStr (lit "x1"));
             (lit "imageDataUrl", JStr (lit "data:image/png;base64,DDDD"));
             (lit "prompt", JStr (lit "fish"));
             (lit "timestamp", JNum (NInt 5))];
            [(lit "id", JStr (lit "a"));
             (lit "imageDataUrl", JStr (lit "d"));
             (lit "prompt", JStr (lit "p"));
             (lit "timestamp", JNum (NInt 1))];
            [(lit "id", JStr (lit "b"));
             (lit "imageDataUrl", JStr (lit "e"));
             (lit "prompt", JStr (lit "q"));
             (lit "timestamp", JNum (NInt 2))]]
           throws (holding (objects_of [dog; cat]))).
  - vm_compute. reflexivity.
  - vm_compute. reflexivity.
Defined.

(** C3, the code at the failing input.  A payload with two valid entries
    of the same id, imported into the empty library, leaves a library in
    which that id occurs twice. *)
Theorem import_same_id_twice (write : setItem) :
  ids (library (fst (handleImportLibrary payload_same_id_twice write (holding []))))
  = [Some (JStr (lit "a")); Some (JStr (lit "a"))]
  /\ ~ NoDup (ids (library (fst (handleImportLibrary payload_same_id_twice write
                                   (holding []))))).
Proof.
  assert (E : ids (library (fst (handleImportLibrary payload_same_id_twice write
                                   (holding []))))
              = [Some (JStr (lit "a")); Some (JStr (lit "a"))])
    by (vm_compute; reflexivity).
  split; [exact E|]. rewrite E. intros H.
  apply NoDup_cons_iff in H as [H _]. apply H. now left.
Qed.


(** *** Saving and deleting *)

Lemma delete_keeps_others (id : jsstring) (l : list object) :
  ~ In (Some (JStr id)) (ids l) ->
  filter (fun img => negb (strict_equal_string (get (lit "id") img) id)) l = l.
Proof.
  intros Hfresh. apply filter_all. intros img Hin. apply negb_true_iff.
  destruct (strict_equal_string (get (lit "id") img) id) eqn:E; [|reflexivity].
  exfalso. apply Hfresh. unfold strict_equal_string in E.
  destruct (get (lit "id") img) as [[| | |t| |]|] eqn:Hid; try discriminate.
  apply eqb_string_eq in E. subst t. rewrite <- Hid. unfold ids. now apply in_map.
Qed.

Lemma save_adds (now1 : Z) (random : number) (now2 : Z) (write : setItem)
    (st : state) (out : jsstring) :
  outputImage st = Some out -> out <> [] -> prompt st <> [] ->
  exists mime,
    library (handleSaveToLibrary now1 random now2 write st)
    = types.object_of
        {| types.id := new_id now1 random;
           types.imageDataUrl := out;
           types.mimeType := mime;
           types.prompt := prompt st;
           types.timestamp := now2 |}
      :: library st.
Proof.
  intros Hout Hne Hp. unfold handleSaveToLibrary. rewrite Hout.
  destruct out as [|c out]; [congruence|].
  destruct (prompt st) as [|p rest]; [congruence|].
  eexists. reflexivity.
Qed.

(** C5.  Saving the generated image puts a new entry in front of the
    library; when the id it is given does not occur in the library,
    deleting by that id gives back exactly the library there was.  Both
    hold whatever the browser does with the two writes. *)
Theorem delete_after_save
    (now1 : Z) (random : number) (now2 : Z) (w1 w2 : setItem) (st : state)
    (out : jsstring) :
  outputImage st = Some out -> out <> [] -> prompt st <> [] ->
  ~ In (Some (JStr (new_id now1 random))) (ids (library st)) ->
  (exists img,
     library (handleSaveToLibrary now1 random now2 w1 st) = img :: library st
     /\ get (lit "id") img = Some (JStr (new_id now1 random)))
  /\ library (handleDeleteFromLibrary (new_id now1 random) w2
                (handleSaveToLibrary now1 random now2 w1 st))
     = library st.
Proof.
  intros Hout Hne Hp Hfresh.
  destruct (save_adds now1 random now2 w1 st out Hout Hne Hp) as (mime & Hsave).
  split.
  - eexists. split; [exact Hsave|reflexivity].
  - unfold handleDeleteFromLibrary. cbn [library updateLibrary].
    rewrite Hsave. cbn [filter]. rewrite get_id.
    cbn [strict_equal_string types.id]. rewrite eqb_string_refl. cbn [negb].
    now apply delete_keeps_others.
Qed.

(** C5 on a library of two images: a third one is generated, saved under
    an id that differs from the two ids of the library, and deleted
    again. *)
Lemma delete_after_save_witness :
  ~ In (Some (JStr (new_id 1700000000000 (NFrac 5 1)))) (ids (library generated_third))
  /\ library (handleSaveToLibrary 1700000000000 (NFrac 5 1) 1700000000000 stores
                generated_third)
     = types.object_of
         {| types.id := lit "1700000000000-0.5";
            types.imageDataUrl := lit "data:image/png;base64,CCCC";
            types.mimeType := lit "image/png";
            types.prompt := lit "bird";
            types.timestamp := 1700000000000 |}
       :: objects_of [dog; cat]
  /\ library (handleDeleteFromLibrary (new_id 1700000000000 (NFrac 5 1)) throws
                (handleSaveToLibrary 1700000000000 (NFrac 5 1) 1700000000000 stores
                   generated_third))
     = objects_of [dog; cat].
Proof.
  split; [vm_compute; intuition discriminate|].
  split; [vm_compute; reflexivity|].
  apply (delete_after_save 1700000000000 (NFrac 5 1) 1700000000000 stores throws
           generated_third (lit "data:image/png;base64,CCCC")).
  - reflexivity.
  - discriminate.
  - discriminate.
  - vm_compute. intuition discriminate.
Defined.

(** Deleting an id that does not occur changes nothing in the library. *)
Lemma delete_absent (id : jsstring) (write : setItem) (st : state) :
  ~ In (Some (JStr id)) (ids (library st)) ->
  library (handleDeleteFromLibrary id write st) = library st.
Proof. intros H. cbn. now apply delete_keeps_others. Qed.

(** *** The saved mark *)

(** C9.  With a generated image on display, the mark is set exactly when
    some entry of the library has that very string for imageDataUrl.
    After the image of the scenario has been saved in the empty library
    the mark is set for its data URL and not for another one. *)
Theorem isSaved_exact :
  (forall (l : list object) (s p : jsstring) (stored : option jsstring),
     isSaved {| library := l; outputImage := Some s; prompt := p;
                localStorage := stored |} = true
     <-> exists img, In img l /\ get (lit "imageDataUrl") img = Some (JStr s))
  /\ (forall write,
       isSaved (showing (Some (lit "data:image/png;base64,AAAA"))
                  (handleSaveToLibrary 1000 (NFrac 5 1) 1000 write generated)) = true)
  /\ (forall write,
       isSaved (showing (Some (lit "data:image/png;base64,BBBB"))
                  (handleSaveToLibrary 1000 (NFrac 5 1) 1000 write generated)) = false).
Proof.
  split; [|split; intros write; vm_compute; reflexivity].
  intros l s p stored. unfold isSaved. cbn [library outputImage].
  rewrite existsb_exists. split; intros (img & Hin & H); exists img;
    (split; [assumption|]).
  - cbn [strict_equal_string_or_null] in H. unfold strict_equal_string in H.
    destruct (get (lit "imageDataUrl") img) as [[| | |t| |]|]; try discriminate.
    apply eqb_string_eq in H. now subst.
  - rewrite H. cbn. apply eqb_string_refl.
Qed.

(** *** What the handlers preserve *)

(** When the browser takes the write, what [updateLibrary] stores is what
    the mount effect loads: a library of typed images comes back from
    storage as it was saved.  When the write throws, storage keeps the
    item it had, and that is what the mount effect will load. *)
Theorem stored_library_loads_back (l : list types.SavedImage) (st : state) :
  loadLibraryEffect (localStorage (updateLibrary stores (objects_of l) st))
  = array_of (objects_of l)
  /\ library (updateLibrary throws (objects_of l) st) = objects_of l
  /\ loadLibraryEffect (localStorage (updateLibrary throws (objects_of l) st))
     = loadLibraryEffect (localStorage st).
Proof.
  split; [|split; reflexivity]. cbn [localStorage updateLibrary].
  apply load_parseable. unfold stringify. now apply parse_serialized_library.
Qed.

(** An import, whatever the payload, never removes, changes or reorders
    the entries that are in the library: what it adds goes in front. *)
Theorem import_keeps_entries (text : jsstring) (write : setItem) (st : state) :
  exists newImages,
    library (fst (handleImportLibrary text write st)) = newImages ++ library st.
Proof.
  unfold handleImportLibrary.
  destruct (parse text) as [[| | | |items|]|]; try (now exists []).
  destruct (validImportedImages items) as [validImages|]; [|now exists []].
  cbv zeta.
  destruct (filter _ validImages) as [|x new] eqn:E; [now exists []|].
  now exists (x :: new).
Qed.

Lemma NoDup_map_filter {A B} (f : A -> B) (g : A -> bool) (l : list A) :
  NoDup (map f l) -> NoDup (map f (filter g l)).
Proof.
  induction l as [|x l IH]; cbn [map filter]; [trivial|].
  intros H. apply NoDup_cons_iff in H as [Hx Hl].
  destruct (g x); [|now apply IH]. cbn [map]. apply NoDup_cons; [|now apply IH].
  intros Hin. apply Hx. apply in_map_iff in Hin as (y & Hy & Hin).
  apply filter_In in Hin as [Hin _]. rewrite <- Hy. now apply in_map.
Qed.

(** The ids of the library stay pairwise distinct through an import when
    the entries of the payload that pass the filter have pairwise
    distinct ids among themselves. *)
Theorem import_keeps_ids_distinct
    (text : jsstring) (items : list object) (write : setItem) (st : state) :
  parse text = Some (array_of items) ->
  NoDup (ids (filter valid items)) ->
  NoDup (ids (library st)) ->
  NoDup (ids (library (fst (handleImportLibrary text write st)))).
Proof.
  intros Hparse Hnew Hold. rewrite (import_objects text items write st Hparse).
  destruct (filter _ (filter valid items)) as [|x new] eqn:E; [assumption|].
  cbn [fst updateLibrary library]. rewrite <- E, ids_app.
  apply NoDup_app; [now apply NoDup_map_filter|assumption|].
  intros v Hv Hin. apply in_map_iff in Hv as (img & <- & Himg).
  apply filter_In in Himg as [Himg Hfresh].
  apply filter_In in Himg as [_ Hvalid].
  destruct (valid_id img Hvalid) as (s & Hs & _).
  rewrite Hs in *. apply Set_has_string in Hin. rewrite Hin in Hfresh. discriminate.
Qed.

(** [import_keeps_ids_distinct] on a payload of three valid entries with
    three ids, one of which is in the library, imported into a library
    of two images: the four ids of the result are pairwise distinct. *)
Lemma import_keeps_ids_distinct_witness :
  ids (library (fst (handleImportLibrary payload_three stores
                       (holding (objects_of [dog; cat])))))
  = [Some (JStr (lit "a")); Some (JStr (lit "b"));
     Some (JStr (lit "x2")); Some (JStr (lit "x1"))]
  /\ NoDup (ids (library (fst (handleImportLibrary payload_three stores
                                 (holding (objects_of [dog; cat])))))).
Proof.
  split; [vm_compute; reflexivity|].
  apply (import_keeps_ids_distinct payload_three
           [[(lit "id", JStr (lit "x1"));
             (lit "imageDataUrl", JStr (lit "data:image/png;base64,DDDD"));
             (lit "prompt", JStr (lit "fish"));
             (lit "timestamp", JNum (NInt 5))];
            [(lit "id", JStr (lit "a"));
             (lit "imageDataUrl", JStr (lit "d"));
             (lit "prompt", JStr (lit "p"));
             (lit "timestamp", JNum (NInt 1))];
            [(lit "id", JStr (lit "b"));
             (lit "imageDataUrl", JStr (lit "e"));
             (lit "prompt", JStr (lit "q"));
             (lit "timestamp", JNum (NInt 2))]]
           stores (holding (objects_of [dog; cat]))).
  - vm_compute. reflexivity.
  - vm_compute. repeat constructor; cbn; intuition discriminate.
  - vm_compute. repeat constructor; cbn; intuition discriminate.
Defined.

(** Deleting keeps the ids pairwise distinct, and afterwards the deleted
    id occurs nowhere in the library. *)
Theorem delete_removes_id (id : jsstring) (write : setItem) (st : state) :
  (NoDup (ids (library st)) ->
   NoDup (ids (library (handleDeleteFromLibrary id write st))))
  /\ ~ In (Some (JStr id)) (ids (library (handleDeleteFromLibrary id write st))).
Proof.
  cbn [handleDeleteFromLibrary updateLibrary library]. split.
  - apply NoDup_map_filter.
  - intros Hin. apply in_map_iff in Hin as (img & Hid & Hin).
    apply filter_In in Hin as [_ Hkeep]. rewrite Hid in Hkeep.
    cbn in Hkeep. now rewrite eqb_string_refl in Hkeep.
Qed.

Lemma validImportedImages_valid (items : list json) (validImages : list object) :
  validImportedImages items = Some validImages ->
  forall img, In img validImages -> valid img = true.
Proof.
  revert validImages. induction items as [|item items IH]; intros validImages.
  - intros [= <-] img [].
  - cbn [validImportedImages].
    destruct item as [| | | | |item]; try discriminate; try (apply IH).
    destruct (validImportedImages items) as [l|]; [|discriminate].
    intros [= <-] img. destruct (valid item) eqn:Hvalid.
    + intros [<-|Hin]; [assumption|now apply (IH l)].
    + now apply (IH l).
Qed.

(** Importing the same payload a second time right after the first never
    changes the state again, whatever the payload: a file that was
    refused is refused again, and a file that was read has nothing new
    left to add. *)
Theorem import_idempotent (text : jsstring) (w1 w2 : setItem) (st : state) :
  fst (handleImportLibrary text w2 (fst (handleImportLibrary text w1 st)))
  = fst (handleImportLibrary text w1 st)
  /\ forall n, snd (handleImportLibrary text w2 (fst (handleImportLibrary text w1 st)))
               <> importSuccess n.
Proof.
  unfold handleImportLibrary.
  destruct (parse text) as [[| | | |items|]|];
    try (split; [reflexivity|discriminate]).
  destruct (validImportedImages items) as [validImages|] eqn:Hvalid;
    [|split; [reflexivity|discriminate]].
  pose proof (validImportedImages_valid items validImages Hvalid) as Hall.
  cbv zeta.
  assert (Hnone : forall l,
    (forall img, In img validImages -> In (get (lit "id") img) (ids l)) ->
    filter (fun img => negb (Set_has (map (get (lit "id")) l) (get (lit "id") img)))
           validImages = []).
  { intros l Hl. apply filter_none. intros img Hin. apply negb_false_iff.
    destruct (valid_id img (Hall img Hin)) as (s & Hs & _).
    rewrite Hs. apply Set_has_string. rewrite <- Hs. now apply Hl. }
  destruct (filter (fun img => negb (Set_has (map (get (lit "id")) (library st))
                                       (get (lit "id") img))) validImages)
    as [|x new] eqn:E; cbn [fst snd].
  - rewrite E. split; [reflexivity|discriminate].
  - cbn [library updateLibrary]. rewrite Hnone; [split; [reflexivity|discriminate]|].
    intros img Hin. fold (ids ((x :: new) ++ library st)). rewrite ids_app.
    apply in_or_app.
    destruct (Set_has (map (get (lit "id")) (library st)) (get (lit "id") img))
      eqn:Hknown.
    + right. destruct (valid_id img (Hall img Hin)) as (s & Hs & _).
      rewrite Hs in *. now apply Set_has_string.
    + left. rewrite <- E. unfold ids. apply in_map. apply filter_In.
      split; [assumption|]. now rewrite Hknown.
Qed.

(** The file an export of typed images produces, and the text
    [updateLibrary] hands to [setItem] and the browser stores when it
    takes the write, are well-formed UTF-16: they survive the UTF-8
    encoding of the download unchanged. *)
Theorem exported_text_well_formed (l : list types.SavedImage) (st : state) :
  (forall file, library st = objects_of l ->
     handleExportLibrary st = Some file -> well_formed file = true)
  /\ exists text,
       localStorage (updateLibrary stores (objects_of l) st) = Some text
       /\ well_formed text = true.
Proof.
  split.
  - intros file Hlib Hexport. unfold handleExportLibrary in Hexport.
    rewrite Hlib in Hexport. destruct (objects_of l) eqn:E; [discriminate|].
    injection Hexport as <-. rewrite <- E.
    apply well_formed_library; [apply whitespace_spaces|reflexivity].
  - eexists. split; [reflexivity|]. now apply well_formed_library.
Qed.

(** Saving keeps the ids pairwise distinct when the id drawn for the new
    image is not in the library. *)
Lemma save_keeps_ids_distinct
    (now1 : Z) (random : number) (now2 : Z) (write : setItem) (st : state) :
  ~ In (Some (JStr (new_id now1 random))) (ids (library st)) ->
  NoDup (ids (library st)) ->
  NoDup (ids (library (handleSaveToLibrary now1 random now2 write st))).
Proof.
  intros Hfresh Hold. unfold handleSaveToLibrary.
  destruct (outputImage st) as [[|c out]|]; try assumption.
  destruct (prompt st) as [|p rest]; try assumption.
  cbn [library updateLibrary ids map]. rewrite get_id. cbn [types.id].
  now apply NoDup_cons.
Qed.

(** With fresh ids on save and no id twice among the valid entries of an
    imported file, the ids of the library are pairwise distinct in every
    state the library reaches from the empty one. *)
Theorem careful_ids_distinct (st : state) :
  careful st -> NoDup (ids (library st)).
Proof.
  induction 1 as [|st st' _ IH Hlib _|st now1 random now2 write _ IH Hfresh
                  |st i write _ IH|st text items write _ IH Hparse Hnew].
  - constructor.
  - now rewrite Hlib.
  - now apply save_keeps_ids_distinct.
  - cbn [handleDeleteFromLibrary updateLibrary library].
    now apply NoDup_map_filter.
  - rewrite (import_objects text items write st Hparse).
    destruct (filter _ (filter valid items)) as [|x new] eqn:E; [assumption|].
    cbn [fst updateLibrary library]. rewrite <- E, ids_app.
    apply NoDup_app; [now apply NoDup_map_filter|assumption|].
    intros v Hv Hin. apply in_map_iff in Hv as (img & <- & Himg).
    apply filter_In in Himg as [Himg Hfresh].
    apply filter_In in Himg as [_ Hvalid].
    destruct (valid_id img Hvalid) as (s & Hs & _).
    rewrite Hs in *. apply Set_has_string in Hin. rewrite Hin in Hfresh.
    discriminate.
Qed.

(** [careful_ids_distinct] on a session of two saves under different
    ids (the browser refuses the second write) followed by the import of
    three entries with three further ids: the five ids of the library
    are pairwise distinct. *)
Lemma careful_ids_distinct_witness :
  ids (library
         (fst (handleImportLibrary payload_three stores
                 (handleSaveToLibrary 1700000000500 (NFrac 25 2) 1700000000500 throws
                    (showing (Some (lit "data:image/png;base64,BBBB"))
                       (handleSaveToLibrary 1700000000000 (NFrac 5 1) 1700000000000
                          stores generated))))))
  = [Some (JStr (lit "x1")); Some (JStr (lit "a")); Some (JStr (lit "b"));
     Some (JStr (lit "1700000000500-0.25")); Some (JStr (lit "1700000000000-0.5"))]
  /\ NoDup
       (ids (library
               (fst (handleImportLibrary payload_three stores
                       (handleSaveToLibrary 1700000000500 (NFrac 25 2) 1700000000500
                          throws
                          (showing (Some (lit "data:image/png;base64,BBBB"))
                             (handleSaveToLibrary 1700000000000 (NFrac 5 1)
                                1700000000000 stores generated))))))).
Proof.
  split; [vm_compute; reflexivity|].
  apply careful_ids_distinct.
  apply (careful_import _ payload_three
           [[(lit "id", JStr (lit "x1"));
             (lit "imageDataUrl", JStr (lit "data:image/png;base64,DDDD"));
             (lit "prompt", JStr (lit "fish"));
             (lit "timestamp", JNum (NInt 5))];
            [(lit "id", JStr (lit "a"));
             (lit "imageDataUrl", JStr (lit "d"));
             (lit "prompt", JStr (lit "p"));
             (lit "timestamp", JNum (NInt 1))];
            [(lit "id", JStr (lit "b"));
             (lit "imageDataUrl", JStr (lit "e"));
             (lit "prompt", JStr (lit "q"));
             (lit "timestamp", JNum (NInt 2))]]).
  - apply careful_save.
    + apply (careful_ui (handleSaveToLibrary 1700000000000 (NFrac 5 1) 1700000000000
                           stores generated)); [|reflexivity|reflexivity].
      apply careful_save.
      * apply (careful_ui initial generated); [apply careful_initial| |]; reflexivity.
      * intros [].
    + vm_compute. intuition discriminate.
  - vm_compute. reflexivity.
  - vm_compute. repeat constructor; cbn; intuition discriminate.
Defined.

End LibraryFacts.

(* ================================================================== *)
(** ** The generation requests *)
(* ================================================================== *)

Module ServiceFacts.
Import JS geminiService Vocabulary.

(** C10.  Each of the three request functions sends exactly one prompt
    text to the remote service: the prompt followed by a comma, a space
    and the style text when a non-empty style text is given, and the
    prompt as it is when the style text is absent or empty. *)
Theorem final_prompt_forwarded
    (ai : service) (prompt : jsstring) (style : option jsstring)
    (ratio : types.AspectRatio) (image image2 : ImageInput) :
  prompt_sent (sent (generateImageFromText ai prompt style ratio))
  = [styled prompt style]
  /\ prompt_sent (sent (generateImageFromImage ai prompt image style))
     = [styled prompt style]
  /\ prompt_sent (sent (generateImageFromTwoImages ai prompt image image2 style))
     = [styled prompt style].
Proof.
  assert (E : finalPrompt prompt style = styled prompt style)
    by (destruct style as [[|c s]|]; reflexivity).
  cbn. rewrite E. repeat split.
Qed.

End ServiceFacts.

(* ================================================================== *)
(** ** Facts about text *)
(* ================================================================== *)

Module JSTextFacts.
Import JS JSText.

Lemma split_not_nil (sep : char) (s : jsstring) : split sep s <> [].
Proof.
  induction s as [|c t IH]; cbn; [discriminate|].
  destruct (c =? sep)%N; [discriminate|]. now destruct (split sep t).
Qed.

Lemma split_without (sep : char) (s : jsstring) : ~ In sep s -> split sep s = [s].
Proof.
  induction s as [|c t IH]; intros H; [reflexivity|]. cbn.
  destruct (N.eqb_spec c sep) as [->|_]; [exfalso; apply H; now left|].
  rewrite IH; [reflexivity|]. intros Hin. apply H. now right.
Qed.

Lemma split_app (sep : char) (a b : jsstring) :
  ~ In sep a -> split sep (a ++ sep :: b) = a :: split sep b.
Proof.
  induction a as [|c t IH]; intros H; cbn.
  - now rewrite N.eqb_refl.
  - destruct (N.eqb_spec c sep) as [->|_]; [exfalso; apply H; now left|].
    rewrite IH; [reflexivity|]. intros Hin. apply H. now right.
Qed.

(** The piece after the first comma of a text with exactly one comma. *)
Lemma after_first_comma_app (a b : jsstring) :
  ~ In 44%N a -> ~ In 44%N b -> after_first_comma (a ++ 44%N :: b) = Some b.
Proof.
  intros Ha Hb. unfold after_first_comma.
  rewrite split_app by assumption. now rewrite split_without.
Qed.

Lemma after_first_comma_none (s : jsstring) :
  ~ In 44%N s -> after_first_comma s = None.
Proof. intros H. unfold after_first_comma. now rewrite split_without. Qed.

Lemma indexOf_app (c : char) (a b : jsstring) :
  ~ In c a -> indexOf c (a ++ c :: b) = Z.of_nat (List.length a).
Proof.
  induction a as [|x t IH]; intros H.
  - cbn. now rewrite N.eqb_refl.
  - cbn [List.app indexOf List.length].
    destruct (N.eqb_spec x c) as [->|_]; [exfalso; apply H; now left|].
    rewrite IH by (intros Hin; apply H; now right).
    cbv zeta. destruct (Z.ltb_spec (Z.of_nat (List.length t)) 0); lia.
Qed.

Lemma substring_middle (a m b : jsstring) :
  substring (a ++ m ++ b) (Z.of_nat (List.length a))
    (Z.of_nat (List.length a + List.length m)) = m.
Proof.
  unfold substring. rewrite !length_app.
  set (la := List.length a). set (lm := List.length m). set (lb := List.length b).
  replace (Z.to_nat (Z.min _ _)) with la by lia.
  replace (Z.to_nat (Z.max _ _) - la)%nat with lm by lia.
  subst la lm. rewrite skipn_app, skipn_all, Nat.sub_diag. cbn [skipn List.app].
  rewrite firstn_app, firstn_all, Nat.sub_diag. cbn. apply List.app_nil_r.
Qed.

(** The text between the first colon and the first semicolon. *)
Lemma media_type_between (scheme mime rest : jsstring) :
  ~ In 58%N scheme -> ~ In 59%N scheme -> ~ In 59%N mime ->
  substring (scheme ++ 58%N :: mime ++ 59%N :: rest)
    (indexOf 58%N (scheme ++ 58%N :: mime ++ 59%N :: rest) + 1)
    (indexOf 59%N (scheme ++ 58%N :: mime ++ 59%N :: rest)) = mime.
Proof.
  intros Hc Hs Hm. rewrite indexOf_app by assumption.
  replace (scheme ++ 58%N :: mime ++ 59%N :: rest)
    with ((scheme ++ 58%N :: mime) ++ 59%N :: rest)
    by (rewrite <- app_assoc; reflexivity).
  rewrite indexOf_app.
  2:{ intros Hin. apply in_app_or in Hin as [Hin|[Hin|Hin]]; [tauto|discriminate|tauto]. }
  replace ((scheme ++ 58%N :: mime) ++ 59%N :: rest)
    with ((scheme ++ [58%N]) ++ mime ++ 59%N :: rest)
    by (rewrite <- !app_assoc; reflexivity).
  replace (Z.of_nat (List.length scheme) + 1)%Z
    with (Z.of_nat (List.length (scheme ++ [58%N])))
    by (rewrite length_app; cbn; lia).
  replace (Z.of_nat (List.length (scheme ++ 58%N :: mime)))
    with (Z.of_nat (List.length (scheme ++ [58%N]) + List.length mime))
    by (rewrite !length_app; cbn; lia).
  apply substring_middle.
Qed.

End JSTextFacts.

(* ================================================================== *)
(** ** Facts about saving and about the libraries a session builds *)
(* ================================================================== *)

Module SavingFacts.
Import JS JSON App Vocabulary Sessions JSFacts JSONFacts JSTextFacts LibraryFacts.

(** The entry [handleSaveToLibrary] builds, with the media type it reads
    out of the data URL. *)
Lemma save_entry (now1 : Z) (random : number) (now2 : Z) (write : setItem)
    (st : state) (out : jsstring) :
  outputImage st = Some out -> out <> [] -> prompt st <> [] ->
  handleSaveToLibrary now1 random now2 write st =
    updateLibrary write
      (types.object_of
         {| types.id := new_id now1 random;
            types.imageDataUrl := out;
            types.mimeType :=
              match substring out (indexOf 58%N out + 1) (indexOf 59%N out) with
              | [] => lit "image/png"
              | _ => substring out (indexOf 58%N out + 1) (indexOf 59%N out)
              end;
            types.prompt := prompt st;
            types.timestamp := now2 |}
       :: library st) st.
Proof.
  intros Hout Hne Hp. unfold handleSaveToLibrary. rewrite Hout.
  destruct out as [|c out]; [congruence|].
  destruct (prompt st) as [|p rest]; [congruence|]. reflexivity.
Qed.

Lemma new_id_nonempty (now : Z) (random : number) : new_id now random <> [].
Proof.
  unfold new_id. intros H. apply app_eq_nil in H as [_ H]. discriminate H.
Qed.


(** The entry a save creates passes the import filter, provided the
    clock does not read zero when the time stamp is taken; its media type
    is never empty. *)
Theorem saved_entry_importable
    (now1 : Z) (random : number) (now2 : Z) (write : setItem) (st : state)
    (out : jsstring) :
  outputImage st = Some out -> out <> [] -> prompt st <> [] -> now2 <> 0%Z ->
  exists i,
    library (handleSaveToLibrary now1 random now2 write st)
    = types.object_of i :: library st
    /\ types.imageDataUrl i = out
    /\ types.prompt i = prompt st
    /\ types.mimeType i <> []
    /\ valid (types.object_of i) = true.
Proof.
  intros Hout Hne Hp Hnow.
  rewrite (save_entry now1 random now2 write st out) by assumption.
  eexists. split; [reflexivity|]. cbn [types.imageDataUrl types.prompt types.mimeType].
  repeat split.
  - destruct (substring out _ _); discriminate.
  - apply valid_object_of. unfold importable.
    cbn [types.id types.imageDataUrl types.prompt types.timestamp].
    auto using new_id_nonempty.
Qed.

Lemma saved_entry_importable_witness :
  exists i,
    library (handleSaveToLibrary 1700000000000 (NFrac 5 1) 1700000000001 stores generated)
    = types.object_of i :: library generated
    /\ types.imageDataUrl i = lit "data:image/png;base64,AAAA"
    /\ types.prompt i = prompt generated
    /\ types.mimeType i <> []
    /\ valid (types.object_of i) = true.
Proof.
  apply (saved_entry_importable 1700000000000 (NFrac 5 1) 1700000000001 stores generated
           (lit "data:image/png;base64,AAAA")).
  - reflexivity.
  - discriminate.
  - discriminate.
  - discriminate.
Defined.

(** The media type a save records is the text between the first colon
    and the first semicolon of the data URL, and [image/png] when that
    text is empty. *)
Theorem saved_mimeType
    (now1 : Z) (random : number) (now2 : Z) (write : setItem) (st : state)
    (scheme mime rest : jsstring) :
  outputImage st = Some (scheme ++ 58%N :: mime ++ 59%N :: rest) ->
  ~ In 58%N scheme -> ~ In 59%N scheme -> ~ In 59%N mime -> prompt st <> [] ->
  exists i,
    library (handleSaveToLibrary now1 random now2 write st)
    = types.object_of i :: library st
    /\ types.mimeType i = match mime with [] => lit "image/png" | _ => mime end.
Proof.
  intros Hout Hc Hs Hm Hp.
  rewrite (save_entry now1 random now2 write st _ Hout)
    by (try assumption; now destruct scheme).
  eexists. split; [reflexivity|]. cbn [types.mimeType].
  now rewrite media_type_between.
Qed.

Lemma saved_mimeType_witness :
  exists i,
    library (handleSaveToLibrary 1700000000000 (NFrac 5 1) 1700000000001 stores
               (showing (Some (lit "data:image/jpeg;base64,AAAA")) generated))
    = types.object_of i
        :: library (showing (Some (lit "data:image/jpeg;base64,AAAA")) generated)
    /\ types.mimeType i = lit "image/jpeg".
Proof.
  apply (saved_mimeType 1700000000000 (NFrac 5 1) 1700000000001 stores
           (showing (Some (lit "data:image/jpeg;base64,AAAA")) generated)
           (lit "data") (lit "image/jpeg") (lit "base64,AAAA")).
  - reflexivity.
  - cbn. intuition discriminate.
  - cbn. intuition discriminate.
  - cbn. intuition discriminate.
  - discriminate.
Defined.

(** *** The libraries a session builds *)

Lemma Forall_filter {A} (P : A -> Prop) (f : A -> bool) (l : list A) :
  Forall P l -> Forall P (filter f l).
Proof.
  induction 1 as [|x l Hx _ IH]; [constructor|]. cbn [filter].
  destruct (f x); [now constructor|assumption].
Qed.

Lemma stored_typed (l : list types.SavedImage) :
  loadLibraryEffect (Some (stringify (array_of (objects_of l)))) = array_of (objects_of l).
Proof. apply load_parseable. unfold stringify. now apply parse_serialized_library. Qed.

(** Whatever the browser does with the writes, the library of a session
    consists of typed images that pass the import filter. *)
Lemma built_typed (browser : setItem -> Prop) (st : state) :
  built browser st -> typed st.
Proof.
  induction 1 as [|st st' _ IH Hl _|st now1 random now2 write _ IH _ Hnow
                 |st id write _ IH _|st from file write _ IH _ IHfrom _ Hfile].
  - now exists [].
  - destruct IH as (l & H1 & H2). exists l. now rewrite Hl.
  - destruct IH as (l & H1 & H2).
    destruct (outputImage st) as [[|c out]|] eqn:Hout;
      try (unfold handleSaveToLibrary; rewrite Hout; now exists l).
    destruct (prompt st) as [|p rest] eqn:Hp;
      [unfold handleSaveToLibrary; rewrite Hout, Hp; now exists l|].
    rewrite (save_entry now1 random now2 write st (c :: out)); try congruence.
    rewrite H1. eexists (_ :: l). split; [reflexivity|].
    constructor; [|assumption]. unfold importable.
    cbn [types.id types.imageDataUrl types.prompt types.timestamp].
    repeat split; try assumption; try congruence. apply new_id_nonempty.
  - destruct IH as (l & H1 & H2). unfold handleDeleteFromLibrary.
    cbn [library updateLibrary]. rewrite H1, filter_objects_of.
    eexists. split; [reflexivity|]. now apply Forall_filter.
  - destruct IH as (l & H1 & H2). destruct IHfrom as (l' & H1' & H2').
    unfold handleExportLibrary in Hfile. rewrite H1' in Hfile.
    destruct (objects_of l') eqn:E; [discriminate|]. rewrite <- E in Hfile.
    injection Hfile as <-.
    rewrite (import_objects _ (objects_of l') write st) by apply parse_export.
    rewrite filter_valid_importable by assumption. rewrite filter_objects_of.
    destruct (objects_of (filter _ l')) eqn:En; [now exists l|]. rewrite <- En.
    cbn [fst library updateLibrary]. rewrite H1. unfold objects_of.
    rewrite <- map_app. eexists. split; [reflexivity|].
    apply Forall_app. split; [now apply Forall_filter|assumption].
Qed.

(** In a browser that takes every write, storage stays in step with the
    library. *)
Lemma built_in_step (st : state) : built storing_browser st -> in_step st.
Proof.
  induction 1 as [|st st' _ IH Hl Hs|st now1 random now2 write _ IH Hw Hnow
                 |st id write _ IH Hw|st from file write _ IH _ _ Hw Hfile];
    unfold storing_browser in *; subst.
  - right. split; reflexivity.
  - unfold in_step. now rewrite Hl, Hs.
  - unfold handleSaveToLibrary.
    destruct (outputImage st) as [[|c out]|]; try assumption.
    destruct (prompt st) as [|p rest]; try assumption. now left.
  - now left.
  - unfold handleImportLibrary.
    destruct (parse file) as [[| | | |items|]|]; try assumption.
    destruct (validImportedImages items) as [validImages|]; [|assumption].
    cbv zeta. destruct (filter _ validImages); [assumption|]. now left.
Qed.

(** In a browser that takes every write, reloading the page brings back
    whatever library the session built: what the mount effect reads from
    storage is the library of the state. *)
Theorem built_library_survives_reload (st : state) :
  built storing_browser st ->
  loadLibraryEffect (localStorage st) = array_of (library st).
Proof.
  intros H. destruct (built_typed _ _ H) as (l & Hl & _).
  destruct (built_in_step _ H) as [Hs|[Hs He]]; rewrite Hs.
  - rewrite Hl. apply stored_typed.
  - now rewrite He.
Qed.

Lemma built_library_survives_reload_witness :
  loadLibraryEffect
    (localStorage
       (handleDeleteFromLibrary (lit "1700000000000-0.5") stores
          (handleSaveToLibrary 1700000000500 (NFrac 25 2) 1700000000500 stores
             (showing (Some (lit "data:image/png;base64,BBBB"))
                (handleSaveToLibrary 1700000000000 (NFrac 5 1) 1700000000001 stores
                   generated)))))
  = array_of
      (library
         (handleDeleteFromLibrary (lit "1700000000000-0.5") stores
            (handleSaveToLibrary 1700000000500 (NFrac 25 2) 1700000000500 stores
               (showing (Some (lit "data:image/png;base64,BBBB"))
                  (handleSaveToLibrary 1700000000000 (NFrac 5 1) 1700000000001 stores
                     generated))))).
Proof.
  apply built_library_survives_reload.
  apply built_delete; [|reflexivity].
  apply built_save; [|reflexivity|discriminate].
  apply (built_ui _ (handleSaveToLibrary 1700000000000 (NFrac 5 1) 1700000000001 stores
                       generated)); [|reflexivity|reflexivity].
  apply built_save; [|reflexivity|discriminate].
  apply (built_ui _ initial generated); [apply built_initial|reflexivity|reflexivity].
Defined.

(** Whatever non-empty library a session built, and whatever the browser
    did with its writes, exporting the library and importing the file
    into an empty library gives the same library back.  Every entry is
    reported as added when the browser takes the write of the import,
    and the import is reported as failed when it does not. *)
Theorem built_library_round_trips
    (browser : setItem -> Prop) (write : setItem) (st importing : state) :
  built browser st -> library st <> [] -> library importing = [] ->
  exists file,
    handleExportLibrary st = Some file /\
    library (fst (handleImportLibrary file write importing)) = library st /\
    snd (handleImportLibrary file write importing)
    = match write with
      | stores => importSuccess (List.length (library st))
      | throws => importError
      end.
Proof.
  intros H Hne Hempty. apply built_typed in H as (l & H1 & H2).
  eexists. split; [now apply export_nonempty|]. rewrite H1.
  rewrite (import_objects _ (objects_of l) write importing) by apply parse_export.
  rewrite filter_valid_importable by assumption. rewrite Hempty. cbn [ids map].
  rewrite filter_all by reflexivity.
  rewrite H1 in Hne. destruct (objects_of l) eqn:E; [congruence|].
  cbn [fst snd library updateLibrary]. rewrite List.app_nil_r. auto.
Qed.

Lemma built_library_round_trips_witness :
  exists file,
    handleExportLibrary
      (handleSaveToLibrary 1700000000500 (NFrac 25 2) 1700000000500 throws
         (showing (Some (lit "data:image/png;base64,BBBB"))
            (handleSaveToLibrary 1700000000000 (NFrac 5 1) 1700000000001 stores
               generated))) = Some file /\
    library (fst (handleImportLibrary file throws initial))
    = library
        (handleSaveToLibrary 1700000000500 (NFrac 25 2) 1700000000500 throws
           (showing (Some (lit "data:image/png;base64,BBBB"))
              (handleSaveToLibrary 1700000000000 (NFrac 5 1) 1700000000001 stores
                 generated))) /\
    snd (handleImportLibrary file throws initial) = importError.
Proof.
  apply (built_library_round_trips any_browser throws).
  - apply built_save; [|exact I|discriminate].
    apply (built_ui _ (handleSaveToLibrary 1700000000000 (NFrac 5 1) 1700000000001
                         stores generated)); [|reflexivity|reflexivity].
    apply built_save; [|exact I|discriminate].
    apply (built_ui _ initial generated); [apply built_initial|reflexivity|reflexivity].
  - discriminate.
  - reflexivity.
Defined.

End SavingFacts.

(* ================================================================== *)
(** ** Facts about the studio *)
(* ================================================================== *)

Module StudioFacts.
Import JS JSText Studio JSFacts JSTextFacts.

(** *** The feature and the style in use *)

(** [features.find] finds the entry of the active tab. *)
Lemma activeFeature_eq (st : ui) :
  activeFeature st =
    Some {| Feature.key := activeTab st;
            Feature.title :=
              constants.title (constants.LOCALIZED_FEATURES (language st) (activeTab st));
            Feature.description :=
              constants.description
                (constants.LOCALIZED_FEATURES (language st) (activeTab st));
            Feature.promptPlaceholder :=
              constants.promptPlaceholder
                (constants.LOCALIZED_FEATURES (language st) (activeTab st));
            Feature.requiresImage := constants.FEATURES_CONFIG (activeTab st) |}.
Proof. unfold activeFeature. destruct (language st), (activeTab st); reflexivity. Qed.

Lemma stylePrompt_eq (st : ui) :
  stylePrompt st
  = Some (constants.prompt (constants.LOCALIZED_STYLES (language st) (selectedStyle st))).
Proof. unfold stylePrompt. destruct (language st), (selectedStyle st); reflexivity. Qed.

(** The default style has no text, every other style has some. *)
Lemma style_prompt (l : constants.Language) (k : Style.StyleKey) :
  (k = Style.NONE /\ constants.prompt (constants.LOCALIZED_STYLES l k) = [])
  \/ (k <> Style.NONE /\
      exists c s, constants.prompt (constants.LOCALIZED_STYLES l k) = c :: s).
Proof.
  destruct l, k; try (left; split; reflexivity);
    (right; split; [discriminate|]; vm_compute; eauto).
Qed.

(** The request [handleGenerate] makes, by tab and images. *)
Lemma generation_eq (ai : geminiService.service) (st : ui) :
  generation ai st =
    Some
      match activeTab st, inputImage st, inputImage2 st with
      | Feature.TEXT_TO_PHOTO, _, _ =>
          geminiService.generateImageFromText ai (prompt st) (stylePrompt st)
            (aspectRatio st)
      | Feature.IMAGE_FUSION, Some i1, Some i2 =>
          geminiService.generateImageFromTwoImages ai (prompt st)
            (image_of i1) (image_of i2) (stylePrompt st)
      | _, Some i, _ =>
          geminiService.generateImageFromImage ai (prompt st) (image_of i)
            (stylePrompt st)
      | _, None, _ =>
          geminiService.generateImageFromText ai (prompt st) (stylePrompt st)
            (aspectRatio st)
      end.
Proof.
  unfold generation. rewrite activeFeature_eq. cbn [Feature.requiresImage].
  destruct (activeTab st), (inputImage st), (inputImage2 st); reflexivity.
Qed.

(** The Generate button never fails to render, and it is enabled exactly
    when no call is running, the prompt is not empty and the images the
    tab works on are there: none for text-to-photo, both for the
    fusion, the first one for the other tabs. *)
Theorem generate_button_enabled (st : ui) :
  exists disabled,
    isGenerateDisabled st = Some disabled /\
    (disabled = false <->
       isLoading st = false /\ prompt st <> [] /\
       match activeTab st with
       | Feature.TEXT_TO_PHOTO => True
       | Feature.IMAGE_FUSION => inputImage st <> None /\ inputImage2 st <> None
       | _ => inputImage st <> None
       end).
Proof.
  unfold isGenerateDisabled. rewrite activeFeature_eq. cbn [Feature.requiresImage].
  destruct (isLoading st), (prompt st), (activeTab st), (inputImage st), (inputImage2 st);
    cbn; eexists; (split; [reflexivity|]); intuition congruence.
Qed.

(** When the button is enabled, a click sends the request of the active
    tab: the text request with the chosen aspect ratio on the
    text-to-photo tab, both images and the prompt on the fusion tab, the
    first image and the prompt on the other tabs. *)
Theorem enabled_generate_request (ai : geminiService.service) (st : ui) :
  isGenerateDisabled st = Some false ->
  exists o,
    generation ai st = Some o /\
    match activeTab st with
    | Feature.TEXT_TO_PHOTO =>
        geminiService.sent o =
          geminiService.generateImages (lit "imagen-4.0-generate-001")
            (geminiService.finalPrompt (prompt st) (stylePrompt st)) 1
            (lit "image/png") (aspectRatio st)
    | Feature.IMAGE_FUSION =>
        exists i1 i2,
          inputImage st = Some i1 /\ inputImage2 st = Some i2 /\
          geminiService.sent o =
            geminiService.generateContent (lit "gemini-2.5-flash-image")
              [ geminiService.inlineData (base64 i1) (mimeType i1);
                geminiService.inlineData (base64 i2) (mimeType i2);
                geminiService.text
                  (geminiService.finalPrompt (prompt st) (stylePrompt st)) ]
    | _ =>
        exists i,
          inputImage st = Some i /\
          geminiService.sent o =
            geminiService.generateContent (lit "gemini-2.5-flash-image")
              [ geminiService.inlineData (base64 i) (mimeType i);
                geminiService.text
                  (geminiService.finalPrompt (prompt st) (stylePrompt st)) ]
    end.
Proof.
  intros H. rewrite generation_eq. eexists. split; [reflexivity|].
  revert H. unfold isGenerateDisabled. rewrite activeFeature_eq.
  cbn [Feature.requiresImage].
  destruct (isLoading st), (prompt st), (activeTab st),
    (inputImage st) as [i1|], (inputImage2 st) as [i2|];
    cbn; intros H; try discriminate H; try reflexivity; eauto.
Qed.

Lemma enabled_generate_request_witness :
  exists o,
    generation (fun _ => None) (setPrompt (lit "cat") initial) = Some o /\
    geminiService.sent o =
      geminiService.generateImages (lit "imagen-4.0-generate-001")
        (geminiService.finalPrompt (lit "cat")
           (stylePrompt (setPrompt (lit "cat") initial))) 1
        (lit "image/png") types.R1_1.
Proof.
  apply (enabled_generate_request (fun _ => None) (setPrompt (lit "cat") initial)).
  reflexivity.
Defined.

(** The text sent with a request is the prompt alone under the default
    style, and under every other style the prompt, a comma, a space and
    the style's text in the language of the interface. *)
Theorem style_appended_to_prompt (ai : geminiService.service) (st : ui) :
  exists o,
    generation ai st = Some o /\
    geminiService.prompt_sent (geminiService.sent o) =
      [ match selectedStyle st with
        | Style.NONE => prompt st
        | k =>
            prompt st ++ lit ", "
              ++ constants.prompt (constants.LOCALIZED_STYLES (language st) k)
        end ].
Proof.
  rewrite generation_eq. eexists. split; [reflexivity|].
  assert (Hf : geminiService.finalPrompt (prompt st) (stylePrompt st) =
               match selectedStyle st with
               | Style.NONE => prompt st
               | k =>
                   prompt st ++ lit ", "
                     ++ constants.prompt (constants.LOCALIZED_STYLES (language st) k)
               end).
  { rewrite stylePrompt_eq.
    destruct (style_prompt (language st) (selectedStyle st))
      as [[Hk E]|[Hk (c & s & E)]].
    - rewrite E, Hk. reflexivity.
    - rewrite E. destruct (selectedStyle st); try congruence; rewrite E; reflexivity. }
  rewrite <- Hf.
  destruct (activeTab st), (inputImage st), (inputImage2 st); reflexivity.
Qed.

(** *** The tab effect *)

(** A click on the active tab changes nothing; a click on another tab
    clears the prompt, both input images, the output and the error, and
    leaves the rest as it was, a running call included. *)
Theorem select_tab_outcome (k : Feature.FeatureKey) (st : ui) :
  (k = activeTab st -> selectTab k st = st) /\
  (k <> activeTab st ->
     activeTab (selectTab k st) = k /\
     prompt (selectTab k st) = [] /\
     inputImage (selectTab k st) = None /\
     inputImage2 (selectTab k st) = None /\
     outputImage (selectTab k st) = None /\
     error (selectTab k st) = None /\
     library (selectTab k st) = library st /\
     App.localStorage (store (selectTab k st)) = App.localStorage (store st) /\
     language (selectTab k st) = language st /\
     selectedStyle (selectTab k st) = selectedStyle st /\
     aspectRatio (selectTab k st) = aspectRatio st /\
     isLoading (selectTab k st) = isLoading st).
Proof.
  destruct st as [l t s a i1 i2 ld e lo li sp pr [lib out p ls]].
  unfold selectTab, commit. cbn. split.
  - intros ->. now destruct t.
  - intros H. destruct t, k; try congruence; cbn; repeat split.
Qed.

Lemma select_tab_outcome_witness :
  selectTab Feature.TEXT_TO_PHOTO (setPrompt (lit "cat") initial)
  = setPrompt (lit "cat") initial /\
  prompt (selectTab Feature.EDIT_PHOTO (setPrompt (lit "cat") initial)) = [].
Proof.
  split.
  - apply (select_tab_outcome Feature.TEXT_TO_PHOTO (setPrompt (lit "cat") initial)).
    reflexivity.
  - apply (select_tab_outcome Feature.EDIT_PHOTO (setPrompt (lit "cat") initial)).
    discriminate.
Defined.

(** *** Reusing an image of the library *)

(** What [Use this Image] leaves, effects included.  On the
    image-to-photo tab the image becomes the input image.  On the fusion
    tab it fills the first slot when that is empty and the second one
    otherwise.  On the other three tabs the studio moves to the
    image-to-photo tab, and the reset that follows the change of tab
    clears the image just set, together with the prompt and the
    output. *)
Theorem use_image_outcome (image : types.SavedImage) (b : jsstring) (st : ui) :
  after_first_comma (types.imageDataUrl image) = Some b ->
  exists st',
    useImage image st = Some st' /\
    isLibraryOpen st' = false /\
    library st' = library st /\
    match activeTab st with
    | Feature.IMAGE_TO_PHOTO =>
        activeTab st' = Feature.IMAGE_TO_PHOTO /\
        inputImage st' =
          Some {| base64 := b; mimeType := types.mimeType image;
                  dataUrl := types.imageDataUrl image |} /\
        inputImage2 st' = inputImage2 st /\
        prompt st' = prompt st /\ outputImage st' = outputImage st
    | Feature.IMAGE_FUSION =>
        activeTab st' = Feature.IMAGE_FUSION /\
        prompt st' = prompt st /\ outputImage st' = outputImage st /\
        match inputImage st with
        | None =>
            inputImage st' =
              Some {| base64 := b; mimeType := types.mimeType image;
                      dataUrl := types.imageDataUrl image |} /\
            inputImage2 st' = inputImage2 st
        | Some first =>
            inputImage st' = Some first /\
            inputImage2 st' =
              Some {| base64 := b; mimeType := types.mimeType image;
                      dataUrl := types.imageDataUrl image |}
        end
    | _ =>
        activeTab st' = Feature.IMAGE_TO_PHOTO /\
        inputImage st' = None /\ inputImage2 st' = None /\
        prompt st' = [] /\ outputImage st' = None
    end.
Proof.
  intros H. unfold useImage, handleUseImageFromLibrary. rewrite H.
  destruct st as [l t s a i1 i2 ld e lo li sp pr [lib out p ls]].
  cbn [activeTab inputImage]. eexists. split; [reflexivity|].
  destruct t, i1; cbn; repeat split.
Qed.

Lemma use_image_outcome_witness :
  exists st',
    useImage Vocabulary.cat initial = Some st' /\
    isLibraryOpen st' = false /\
    library st' = library initial /\
    activeTab st' = Feature.IMAGE_TO_PHOTO /\
    inputImage st' = None /\ inputImage2 st' = None /\
    prompt st' = [] /\ outputImage st' = None.
Proof.
  apply (use_image_outcome Vocabulary.cat (lit "AAAA") initial).
  reflexivity.
Defined.

(** *** The end of a generation *)

(** A result that arrives after the user moved to another tab is put on
    display there, next to the prompt the change of tab emptied; the
    Save button then does nothing until a prompt is typed. *)
Theorem late_result_after_tab_switch
    (ai : geminiService.service) (k : Feature.FeatureKey) (r : jsstring) (st : ui) :
  k <> activeTab st -> generated_image ai st = Some r ->
  let arrived :=
    handleGenerate_end st (generated_image ai st) (selectTab k (handleGenerate_begin st)) in
  activeTab arrived = k /\
  isLoading arrived = false /\
  outputImage arrived = Some (lit "data:image/png;base64," ++ r) /\
  prompt arrived = [] /\
  forall now1 random now2 write, onSave now1 random now2 write arrived = arrived.
Proof.
  intros Hk Hr arrived. subst arrived. rewrite Hr.
  destruct st as [l t s a i1 i2 ld e lo li sp pr [lib out p ls]].
  cbn in Hk. unfold selectTab, commit, handleGenerate_begin. cbn.
  destruct t, k; try congruence; cbn; repeat split.
Qed.

Lemma late_result_after_tab_switch_witness :
  let ai : geminiService.service :=
    fun _ => Some (geminiService.images (Some [lit "AAAA"])) in
  let st := setPrompt (lit "cat") initial in
  let arrived :=
    handleGenerate_end st (generated_image ai st)
      (selectTab Feature.EDIT_PHOTO (handleGenerate_begin st)) in
  activeTab arrived = Feature.EDIT_PHOTO /\
  isLoading arrived = false /\
  outputImage arrived = Some (lit "data:image/png;base64," ++ lit "AAAA") /\
  prompt arrived = [] /\
  forall now1 random now2 write, onSave now1 random now2 write arrived = arrived.
Proof.
  apply (late_result_after_tab_switch
           (fun _ => Some (geminiService.images (Some [lit "AAAA"])))
           Feature.EDIT_PHOTO (lit "AAAA") (setPrompt (lit "cat") initial)).
  - discriminate.
  - reflexivity.
Defined.

End StudioFacts.

(* ================================================================== *)
(** ** Facts about the flow of images through the studio *)
(* ================================================================== *)

Module FlowFacts.
Import JS JSText Studio JSFacts JSTextFacts.

(** *** From a chosen file to the request *)

(** A file read as [header,payload] and uploaded on one of the tabs
    that work on one image is sent as that payload, with the media type
    the file itself declares, and the upload clears the error. *)
Theorem uploaded_image_sent
    (ai : geminiService.service) (file : File) (header payload : jsstring) (st : ui) :
  contents file = Some (header ++ 44%N :: payload) ->
  ~ In 44%N header -> ~ In 44%N payload ->
  activeTab st <> Feature.TEXT_TO_PHOTO -> activeTab st <> Feature.IMAGE_FUSION ->
  exists st' o,
    handleImageUpload (Some file) slot1 st = Some st' /\
    error st' = None /\
    inputImage2 st' = inputImage2 st /\
    generation ai st' = Some o /\
    geminiService.sent o =
      geminiService.generateContent (lit "gemini-2.5-flash-image")
        [ geminiService.inlineData payload (type file);
          geminiService.text
            (geminiService.finalPrompt (prompt st) (stylePrompt st)) ].
Proof.
  intros Hc Hh Hp Ht Hf. unfold handleImageUpload, fileToBase64. rewrite Hc.
  rewrite after_first_comma_app by assumption.
  eexists. eexists. split; [reflexivity|].
  rewrite StudioFacts.generation_eq.
  destruct st as [l t s a i1 i2 ld e lo li sp pr [lib out p ls]].
  cbn in Ht, Hf. cbn [activeTab inputImage inputImage2 setInputImage setError].
  destruct t; try congruence; repeat split.
Qed.

Lemma uploaded_image_sent_witness :
  exists st' o,
    handleImageUpload
      (Some {| type := lit "image/jpeg";
               contents := Some (lit "data:image/jpeg;base64" ++ 44%N :: lit "AAAA") |})
      slot1 (selectTab Feature.EDIT_PHOTO initial) = Some st' /\
    error st' = None /\
    inputImage2 st' = inputImage2 (selectTab Feature.EDIT_PHOTO initial) /\
    generation (fun _ => None) st' = Some o /\
    geminiService.sent o =
      geminiService.generateContent (lit "gemini-2.5-flash-image")
        [ geminiService.inlineData (lit "AAAA") (lit "image/jpeg");
          geminiService.text
            (geminiService.finalPrompt (prompt (selectTab Feature.EDIT_PHOTO initial))
               (stylePrompt (selectTab Feature.EDIT_PHOTO initial))) ].
Proof.
  apply (uploaded_image_sent (fun _ => None)
           {| type := lit "image/jpeg";
              contents := Some (lit "data:image/jpeg;base64" ++ 44%N :: lit "AAAA") |}
           (lit "data:image/jpeg;base64") (lit "AAAA")
           (selectTab Feature.EDIT_PHOTO initial)).
  - reflexivity.
  - cbn. intuition discriminate.
  - cbn. intuition discriminate.
  - discriminate.
  - discriminate.
Defined.

(** *** From a generated image back to an input *)

(** A generated image that was saved can be used again as it was
    generated when the click on [Use this Image] comes on the
    image-to-photo or the fusion tab: the payload taken out of the saved
    data URL is the one the service returned, and the media type
    recorded is [image/png].  The image lands in the second slot when
    the fusion tab has its first slot filled, in the first slot
    otherwise, and it is there after the effects have run.  (On the
    other three tabs the change of tab clears it.) *)
Theorem reuse_generated_image
    (r : jsstring) (now1 : Z) (random : number) (now2 : Z) (write : App.setItem)
    (st : ui) :
  ~ In 44%N r ->
  outputImage st = Some (lit "data:image/png;base64," ++ r) ->
  prompt st <> [] ->
  exists image,
    library (onSave now1 random now2 write st) = types.object_of image :: library st /\
    forall st',
      activeTab st' = Feature.IMAGE_TO_PHOTO \/ activeTab st' = Feature.IMAGE_FUSION ->
      exists st'',
        useImage image st' = Some st'' /\
        activeTab st'' = activeTab st' /\
        match activeTab st', inputImage st' with
        | Feature.IMAGE_FUSION, Some _ => inputImage2 st''
        | _, _ => inputImage st''
        end
        = Some {| base64 := r; mimeType := lit "image/png";
                  dataUrl := lit "data:image/png;base64," ++ r |}.
Proof.
  intros Hr Hout Hp. unfold onSave, library, outputImage, prompt in *.
  rewrite (SavingFacts.save_entry now1 random now2 write (store st) _ Hout);
    [|discriminate|assumption].
  eexists. split; [reflexivity|]. intros st' Htab.
  unfold useImage, handleUseImageFromLibrary.
  cbn [types.imageDataUrl types.mimeType].
  change (lit "data:image/png;base64," ++ r)
    with (lit "data:image/png;base64" ++ 44%N :: r).
  rewrite after_first_comma_app;
    [|cbn; intuition discriminate|assumption].
  change (lit "data:image/png;base64" ++ 44%N :: r)
    with (lit "data" ++ 58%N :: lit "image/png" ++ 59%N :: (lit "base64," ++ r)).
  rewrite media_type_between by (cbn; intuition discriminate).
  eexists. split; [reflexivity|].
  destruct st' as [l t s a i1 i2 ld e lo li sp pr sto].
  cbn [activeTab inputImage] in *.
  destruct Htab as [-> | ->]; destruct i1; split; reflexivity.
Qed.

Lemma reuse_generated_image_witness :
  exists image,
    library (onSave 1700000000000 (NFrac 5 1) 1700000000001 App.stores
               (setOutputImage (Some (lit "data:image/png;base64," ++ lit "AAAA"))
                  (setPrompt (lit "cat") initial)))
    = types.object_of image
        :: library (setOutputImage (Some (lit "data:image/png;base64," ++ lit "AAAA"))
                      (setPrompt (lit "cat") initial)) /\
    forall st',
      activeTab st' = Feature.IMAGE_TO_PHOTO \/ activeTab st' = Feature.IMAGE_FUSION ->
      exists st'',
        useImage image st' = Some st'' /\
        activeTab st'' = activeTab st' /\
        match activeTab st', inputImage st' with
        | Feature.IMAGE_FUSION, Some _ => inputImage2 st''
        | _, _ => inputImage st''
        end
        = Some {| base64 := lit "AAAA"; mimeType := lit "image/png";
                  dataUrl := lit "data:image/png;base64," ++ lit "AAAA" |}.
Proof.
  apply (reuse_generated_image (lit "AAAA") 1700000000000 (NFrac 5 1) 1700000000001
           App.stores
           (setOutputImage (Some (lit "data:image/png;base64," ++ lit "AAAA"))
              (setPrompt (lit "cat") initial))).
  - cbn. intuition discriminate.
  - reflexivity.
  - discriminate.
Defined.

(** *** Dictation *)

Lemma promptRef_step (st : ui) (e : dictation_event) :
  promptRef (dictation_step st e) = promptRef st.
Proof. now destruct e. Qed.

Lemma promptRef_steps (events : list dictation_event) (st : ui) :
  promptRef (fold_left dictation_step events st) = promptRef st.
Proof.
  revert st. induction events as [|e events IH]; intros st; [reflexivity|].
  cbn [fold_left]. now rewrite IH, promptRef_step.
Qed.

(** Starting the dictation keeps what was typed, followed by a space;
    from then on every report of the recognition sets the prompt to that
    text followed by the transcripts of the report, whatever earlier
    reports wrote and whatever was typed in between. *)
Theorem dictation_keeps_typed_text
    (st : ui) (events : list dictation_event) (transcripts : list jsstring) :
  isSpeechSupported st = true -> isListening st = false ->
  isListening (handleToggleListening st) = true /\
  prompt
    (fold_left dictation_step (events ++ [hearing transcripts])
       (handleToggleListening st))
  = match prompt st with [] => [] | _ => prompt st ++ [32%N] end
    ++ concat transcripts.
Proof.
  intros Hs Hl. unfold handleToggleListening. rewrite Hs, Hl. cbn [negb].
  split.
  - now destruct (prompt st).
  - rewrite fold_left_app. cbn [fold_left dictation_step]. unfold onresult.
    rewrite promptRef_steps.
    destruct st as [l t s a i1 i2 ld e lo li sp pr [lib out p ls]].
    cbn. now destruct p.
Qed.

Lemma dictation_keeps_typed_text_witness :
  isListening (handleToggleListening (setIsSpeechSupported true (setPrompt (lit "a cat") initial)))
  = true /\
  prompt
    (fold_left dictation_step
       ([hearing [lit "on a"]; typing (lit "a dog")] ++ [hearing [lit "on a "; lit "sofa"]])
       (handleToggleListening (setIsSpeechSupported true (setPrompt (lit "a cat") initial))))
  = lit "a cat on a sofa".
Proof.
  apply (dictation_keeps_typed_text
           (setIsSpeechSupported true (setPrompt (lit "a cat") initial))
           [hearing [lit "on a"]; typing (lit "a dog")] [lit "on a "; lit "sofa"]).
  - reflexivity.
  - reflexivity.
Defined.

(** *** The output panel *)

(** After a generation that nothing interrupted the panel shows one
    thing: the image, with the Save button disabled exactly when the
    library already holds that data URL, or the error text of the
    language of the interface.  Neither the spinner nor the placeholder
    is left. *)
Theorem panel_after_generate (ai : geminiService.service) (st : ui) :
  Components.panel (handleGenerate ai st) =
    match generated_image ai st with
    | Some r =>
        [ Components.Output (lit "data:image/png;base64," ++ r)
            (isSaved (setOutputImage (Some (lit "data:image/png;base64," ++ r)) st)) ]
    | None =>
        [ Components.ErrorText (constants.errorTitle (language st))
            (constants.errorMessage (language st)) ]
    end.
Proof.
  unfold handleGenerate. destruct (generated_image ai st) as [r|].
  - destruct st as [l t s a i1 i2 ld e lo li sp pr [lib out p ls]]. reflexivity.
  - assert (H : exists c m, constants.errorMessage (language st) = c :: m)
      by (destruct (language st); vm_compute; eauto).
    destruct H as (c & m & H).
    unfold Components.panel, Components.OutputPanel, handleGenerate_end.
    cbn [isLoading setIsLoading error setError language outputImage store
         handleGenerate_begin setOutputImage setStore App.outputImage].
    rewrite H. reflexivity.
Qed.

End FlowFacts.

(* ================================================================== *)
(** ** Facts about the components *)
(* ================================================================== *)

Module ComponentFacts.
Import JS JSText Components JSFacts JSTextFacts.

(** The four conditional blocks of the output panel exclude each other
    and leave no gap: the panel always shows exactly one of them, the
    spinner before the error, the error before the image, the image
    before the placeholder. *)
Theorem output_panel_one_block
    (outputImage : option jsstring) (isLoading : bool) (error : option jsstring)
    (T : constants.Language) (isSaved : bool) :
  OutputPanel outputImage isLoading error T isSaved =
    [ if isLoading then Spinner
      else match error, outputImage with
           | Some (c :: e), _ => ErrorText (constants.errorTitle T) (c :: e)
           | _, Some (c :: o) => Output (c :: o) isSaved
           | _, _ => Placeholder
           end ].
Proof.
  unfold OutputPanel.
  destruct isLoading, error as [[|c e]|], outputImage as [[|c' o]|]; reflexivity.
Qed.

Lemma replace_runs_no_space (in_run : bool) (s : jsstring) :
  forallb (fun c => negb (is_space c)) (replace_runs in_run s) = true.
Proof.
  revert in_run. induction s as [|c t IH]; intros in_run; [reflexivity|].
  cbn [replace_runs]. destruct (is_space c) eqn:E.
  - destruct in_run; [apply IH|]. cbn [forallb]. now rewrite IH.
  - cbn [forallb]. now rewrite E, IH.
Qed.

(** The id of an uploader contains no white space, whatever the label,
    and the two uploaders of the fusion tab get different ids in both
    languages. *)
Theorem uniqueId_no_space (label : jsstring) :
  forallb (fun c => negb (is_space c)) (uniqueId label) = true /\
  forall l, uniqueId (constants.uploadImage1 l) <> uniqueId (constants.uploadImage2 l).
Proof.
  split.
  - unfold uniqueId. rewrite forallb_app. apply andb_true_iff. split.
    + reflexivity.
    + apply replace_runs_no_space.
  - intros l. destruct l; vm_compute; discriminate.
Qed.

End ComponentFacts.

(* ================================================================== *)
(** ** Facts about the answers of the service *)
(* ================================================================== *)

Module AnswerFacts.
Import JS geminiService.

Lemma first_inline_data_some (parts : list part) (d : jsstring) :
  first_inline_data parts = Some d <->
  exists texts mime rest, parts = map text texts ++ inlineData d mime :: rest.
Proof.
  induction parts as [|[d' m|t] parts IH]; cbn [first_inline_data].
  - split; [discriminate|]. intros (texts & mime & rest & H).
    now destruct texts.
  - split.
    + intros [= ->]. now exists [], m, parts.
    + intros (texts & mime & rest & H). destruct texts; [|discriminate].
      now injection H as -> _ _.
  - rewrite IH. split; intros (texts & mime & rest & H).
    + exists (t :: texts), mime, rest. cbn. now rewrite H.
    + destruct texts as [|t' texts]; [discriminate|]. injection H as _ H.
      now exists texts, mime, rest.
Qed.

(** What the request functions return: of the images of a text request
    the first one; of the parts answered to an image request the data of
    the first part that carries inline data, the text parts before it
    being skipped.  In every other case the function throws. *)
Theorem returned_image
    (ai : service) (prompt : jsstring) (image1 image2 : ImageInput)
    (stylePrompt : option jsstring) (aspectRatio : types.AspectRatio) (d : jsstring) :
  (returned (generateImageFromText ai prompt stylePrompt aspectRatio) = Some d <->
     exists others,
       ai (sent (generateImageFromText ai prompt stylePrompt aspectRatio))
       = Some (images (Some (d :: others)))) /\
  (returned (generateImageFromImage ai prompt image1 stylePrompt) = Some d <->
     exists texts mime rest,
       ai (sent (generateImageFromImage ai prompt image1 stylePrompt))
       = Some (content (map text texts ++ inlineData d mime :: rest))) /\
  (returned (generateImageFromTwoImages ai prompt image1 image2 stylePrompt) = Some d <->
     exists texts mime rest,
       ai (sent (generateImageFromTwoImages ai prompt image1 image2 stylePrompt))
       = Some (content (map text texts ++ inlineData d mime :: rest))).
Proof.
  split; [|split].
  - cbn [returned sent generateImageFromText].
    destruct (ai _) as [[[[|first rest]|]|parts]|]; split;
      try discriminate; try (intros (others & H); discriminate H).
    + intros [= ->]. now exists rest.
    + intros (others & [= -> _]). reflexivity.
  - cbn [returned sent generateImageFromImage].
    destruct (ai _) as [[imgs|parts]|].
    + split; [discriminate|]. intros (texts & mime & rest & H). discriminate H.
    + rewrite first_inline_data_some. split; intros (texts & mime & rest & H);
        exists texts, mime, rest; congruence.
    + split; [discriminate|]. intros (texts & mime & rest & H). discriminate H.
  - cbn [returned sent generateImageFromTwoImages].
    destruct (ai _) as [[imgs|parts]|].
    + split; [discriminate|]. intros (texts & mime & rest & H). discriminate H.
    + rewrite first_inline_data_some. split; intros (texts & mime & rest & H);
        exists texts, mime, rest; congruence.
    + split; [discriminate|]. intros (texts & mime & rest & H). discriminate H.
Qed.

End AnswerFacts.
